(** * santorini-bot: the board and the turn engine

    A shallow embedding of [santorini_bot/board.py] and
    [santorini_bot/game.py].  Python exceptions are values of [Exn] carried by
    [result]; the methods of [Board] mutate a board that the caller has
    copied, and raise before they mutate, so they are functions
    [Board -> result Board]; the methods of [GameManager] mutate the manager
    and may raise after they have mutated it, so they live in a state and
    error monad that keeps the state reached when the exception left. *)

From Stdlib Require Import ZArith Lia Bool List.
From stdpp Require Import base list.
From Stdlib Require Strings.String.
Import ListNotations.
Open Scope Z_scope.

(** ** Exceptions *)

Inductive Exn : Type :=
| IllegalMoveError        (* board.py, raised by the rules *)
| IllegalBoardStateError  (* board.py, raised by the consistency check *)
| AttributeError          (* Python: no such attribute on the object *)
| IndexError              (* Python / numpy: index out of range *)
| ValueError.             (* numpy: negative dimension; deque.remove: absent *)

Inductive result (A : Type) : Type :=
| Ok (a : A)
| Raise (e : Exn).
Arguments Ok {A} a.
Arguments Raise {A} e.

Definition rbind {A B} (r : result A) (k : A -> result B) : result B :=
  match r with
  | Ok a => k a
  | Raise e => Raise e
  end.

Declare Scope result_scope.
Delimit Scope result_scope with result.
Notation "'let?' x ':=' r 'in' k" := (rbind r (fun x => k))
  (at level 10, x name, r at level 100, k at level 200) : result_scope.
Open Scope result_scope.

(** ** Enumerations and turn records (board.py, lines 16-62) *)

Inductive Color : Type := BLUE | WHITE.

Inductive TurnActions : Type := PLACE_WORKER | MOVE | BUILD.

Definition Color_eqb (a b : Color) : bool :=
  match a, b with
  | BLUE, BLUE | WHITE, WHITE => true
  | _, _ => false
  end.

Definition TurnActions_eqb (a b : TurnActions) : bool :=
  match a, b with
  | PLACE_WORKER, PLACE_WORKER | MOVE, MOVE | BUILD, BUILD => true
  | _, _ => false
  end.

Record PlaceWorkerTurn : Type := mkPlaceWorkerTurn
  { pw_color : Color; pw_x : Z; pw_y : Z }.

Record MoveTurn : Type := mkMoveTurn
  { mt_color : Color; start_x : Z; start_y : Z; end_x : Z; end_y : Z }.

Record BuildTurn : Type := mkBuildTurn
  { bt_color : Color; worker_x : Z; worker_y : Z; build_x : Z; build_y : Z }.

Inductive TurnArgs : Type :=
| TurnPlace (t : PlaceWorkerTurn)
| TurnMove (t : MoveTurn)
| TurnBuild (t : BuildTurn).

(** ** Worker (board.py, lines 65-87) *)

Record Worker : Type := mkWorker
  { w_x : Z; w_y : Z; w_height : Z; w_color : Color }.

(** [Worker.move]: the height is kept when none is given. *)
Definition Worker_move (w : Worker) (x y : Z) (height : option Z) : Worker :=
  {| w_x := x;
     w_y := y;
     w_height := match height with Some h => h | None => w_height w end;
     w_color := w_color w |}.

(** ** numpy and itertools helpers *)

(** Indexing one axis of an array, as numpy does it: an index in
    [-n, 0) counts from the end, anything outside [-n, n) raises. *)
Definition np_index (n : nat) (i : Z) : result nat :=
  if (0 <=? i) && (i <? Z.of_nat n) then Ok (Z.to_nat i)
  else if (- Z.of_nat n <=? i) && (i <? 0) then Ok (Z.to_nat (i + Z.of_nat n))
  else Raise IndexError.

Definition np_getitem {A} (l : list A) (i : Z) : result A :=
  let? k := np_index (length l) i in
  match l !! k with
  | Some a => Ok a
  | None => Raise IndexError
  end.

Definition np_setitem {A} (l : list A) (i : Z) (a : A) : result (list A) :=
  let? k := np_index (length l) i in Ok (<[k := a]> l).

(** Cells hold numpy's default integer, 64 bits wide and signed; arithmetic
    on it wraps around. *)
Definition int64_wrap (z : Z) : Z := (z + 2 ^ 63) mod 2 ^ 64 - 2 ^ 63.

(** [np.zeros(shape=(length, width), dtype=int)] *)
Definition np_zeros (length width : Z) : result (list (list Z)) :=
  if (length <? 0) || (width <? 0) then Raise ValueError
  else Ok (replicate (Z.to_nat length) (replicate (Z.to_nat width) 0)).

(** [itertools.product(l1, l2)] *)
Definition product {A B} (l1 : list A) (l2 : list B) : list (A * B) :=
  flat_map (fun a => map (pair a) l2) l1.

Definition pair_eqb (p q : Z * Z) : bool :=
  (fst p =? fst q) && (snd p =? snd q).

(** [filter] with a predicate that may raise: the first exception leaves. *)
Fixpoint filter_r {A} (f : A -> result bool) (l : list A) : result (list A) :=
  match l with
  | [] => Ok []
  | a :: l' =>
      let? keep := f a in
      let? rest := filter_r f l' in
      Ok (if keep then a :: rest else rest)
  end.

(** A [for] loop that breaks with [True] at the first element satisfying
    [f], and yields [False] when it runs off the end. *)
Fixpoint any_r {A} (f : A -> result bool) (l : list A) : result bool :=
  match l with
  | [] => Ok false
  | a :: l' => let? hit := f a in if hit then Ok true else any_r f l'
  end.

(** Index of the first element satisfying [f] ([enumerate] and [return idx]). *)
Fixpoint find_index {A} (f : A -> bool) (l : list A) : option nat :=
  match l with
  | [] => None
  | a :: l' => if f a then Some 0%nat else option_map S (find_index f l')
  end.

(** ** Board (board.py, lines 90-549) *)

Record Board : Type := mkBoard
  { b_length : Z;
    b_width : Z;
    max_height : Z;
    max_workers_per_player : Z;
    workers : list Worker;
    board_blocks : list (list Z) }.

Definition set_workers (b : Board) (ws : list Worker) : Board :=
  {| b_length := b_length b; b_width := b_width b;
     max_height := max_height b;
     max_workers_per_player := max_workers_per_player b;
     workers := ws; board_blocks := board_blocks b |}.

Definition set_board_blocks (b : Board) (bl : list (list Z)) : Board :=
  {| b_length := b_length b; b_width := b_width b;
     max_height := max_height b;
     max_workers_per_player := max_workers_per_player b;
     workers := workers b; board_blocks := bl |}.

(** [Board.__init__] *)
Definition Board_init (length width max_height max_workers_per_player : Z)
  : result Board :=
  let? blocks := np_zeros length width in
  Ok {| b_length := length; b_width := width;
        max_height := max_height;
        max_workers_per_player := max_workers_per_player;
        workers := []; board_blocks := blocks |}.

(** [list(product([0, -1, 1], repeat=2))] without the non-action (0, 0) *)
Definition _neighboring_shifts : list (Z * Z) :=
  List.filter (fun s => negb (pair_eqb s (0, 0))) (product [0; -1; 1] [0; -1; 1]).

Definition _is_on_board (b : Board) (x y : Z) : bool :=
  ((0 <=? x) && (x <? b_width b)) && ((0 <=? y) && (y <? b_length b)).

(** [self.board_blocks[y][x]] *)
Definition _block_height (b : Board) (x y : Z) : result Z :=
  let? row := np_getitem (board_blocks b) y in np_getitem row x.

Definition at_xy (x y : Z) (w : Worker) : bool :=
  (w_x w =? x) && (w_y w =? y).

Definition _worker_on_space (b : Board) (x y : Z) : bool :=
  existsb (at_xy x y) (workers b).

Definition _is_neighboring_space (w : Worker) (x y : Z) : bool :=
  existsb (pair_eqb (x - w_x w, y - w_y w)) _neighboring_shifts.

Definition get_workers_with_color (b : Board) (c : Color) : list Worker :=
  List.filter (fun w => Color_eqb (w_color w) c) (workers b).

Definition _num_workers (b : Board) (c : Color) : Z :=
  Z.of_nat (length (List.filter (fun w => Color_eqb (w_color w) c) (workers b))).

Definition _get_worker_at (b : Board) (x y : Z) : result Worker :=
  match find (at_xy x y) (workers b) with
  | Some w => Ok w
  | None => Raise IllegalMoveError
  end.

Definition _get_worker_index (b : Board) (x y : Z) : result nat :=
  match find_index (at_xy x y) (workers b) with
  | Some idx => Ok idx
  | None => Raise IllegalMoveError
  end.

Definition player_can_place_workers (b : Board) (c : Color) : bool :=
  _num_workers b c <? max_workers_per_player b.

Definition place_worker (b : Board) (c : Color) (x y : Z) : result Board :=
  if negb (player_can_place_workers b c) then Raise IllegalMoveError
  else if negb (_worker_on_space b x y) then
    Ok (set_workers b (workers b ++ [mkWorker x y 0 c]))
  else Raise IllegalMoveError.

Definition is_valid_placement (b : Board) (c : Color) (x y : Z) : bool :=
  if _is_on_board b x y then
    player_can_place_workers b c && negb (_worker_on_space b x y)
  else false.

(** [worker.height + 1] is taken in Z.  A height is the 0 of a placement or
    the 64-bit cell that [Board.move] stored, which was below [max_height];
    the sum of the code wraps only for a height of 2^63 - 1, which needs a
    [max_height] of 2^63 or more, and then this test accepts at least the
    moves that the code accepts. *)
Definition is_valid_move (b : Board) (w : Worker) (x y : Z) : result bool :=
  if _is_on_board b x y then
    let? xy_block_height := _block_height b x y in
    Ok ((xy_block_height <=? w_height w + 1)
        && (xy_block_height <? max_height b)
        && negb (_worker_on_space b x y)
        && _is_neighboring_space w x y)
  else Ok false.

Definition is_valid_build (b : Board) (w : Worker) (x y : Z) : result bool :=
  if _is_on_board b x y then
    let? h := _block_height b x y in
    Ok ((h <? max_height b)
        && negb (_worker_on_space b x y)
        && _is_neighboring_space w x y)
  else Ok false.

Definition move (b : Board) (c : Color) (sx sy ex ey : Z) : result Board :=
  let? worker_idx := _get_worker_index b sx sy in
  let? w := match workers b !! worker_idx with
            | Some w => Ok w
            | None => Raise IndexError
            end in
  if negb (Color_eqb (w_color w) c) then Raise IllegalMoveError
  else
    let? valid := is_valid_move b w ex ey in
    if valid then
      let? h := _block_height b ex ey in
      Ok (set_workers b (<[worker_idx := Worker_move w ex ey (Some h)]> (workers b)))
    else Raise IllegalMoveError.

(** [self.board_blocks[build_y][build_x] += 1]: the row is a view of the
    array, so storing into it stores into the board. *)
Definition build (b : Board) (c : Color) (wx wy bx by_ : Z) : result Board :=
  let? w := _get_worker_at b wx wy in
  if negb (Color_eqb (w_color w) c) then Raise IllegalMoveError
  else
    let? valid := is_valid_build b w bx by_ in
    if valid then
      let? row := np_getitem (board_blocks b) by_ in
      let? h := np_getitem row bx in
      let? row' := np_setitem row bx (int64_wrap (h + 1)) in
      let? blocks' := np_setitem (board_blocks b) by_ row' in
      Ok (set_board_blocks b blocks')
    else Raise IllegalMoveError.

Definition neighbor_coordinates (w : Worker) : list (Z * Z) :=
  map (fun s => (w_x w + fst s, w_y w + snd s)) _neighboring_shifts.

Definition get_valid_moves (b : Board) (w : Worker) : result (list MoveTurn) :=
  let? move_coordinates :=
    filter_r (fun xy => is_valid_move b w (fst xy) (snd xy))
             (neighbor_coordinates w) in
  Ok (map (fun c => mkMoveTurn (w_color w) (w_x w) (w_y w) (fst c) (snd c))
          move_coordinates).

Definition get_valid_builds (b : Board) (w : Worker) : result (list BuildTurn) :=
  let? build_coordinates :=
    filter_r (fun xy => is_valid_build b w (fst xy) (snd xy))
             (neighbor_coordinates w) in
  Ok (map (fun c => mkBuildTurn (w_color w) (w_x w) (w_y w) (fst c) (snd c))
          build_coordinates).

Definition player_can_move (b : Board) (c : Color) : result bool :=
  any_r (fun w => let? l := get_valid_moves b w in
                  Ok (negb (length l =? 0)%nat))
        (get_workers_with_color b c).

Definition player_can_build (b : Board) (c : Color) : result bool :=
  any_r (fun w => let? l := get_valid_builds b w in
                  Ok (negb (length l =? 0)%nat))
        (get_workers_with_color b c).

Definition workers_at_max_height (b : Board) (c : Color) : list Worker :=
  List.filter (fun w => w_height w =? max_height b - 1) (get_workers_with_color b c).

Definition player_in_win_state (b : Board) (c : Color) : result bool :=
  if (1 <? length (workers_at_max_height b c))%nat
  then Raise IllegalBoardStateError
  else Ok (length (workers_at_max_height b c) =? 1)%nat.

Definition player_in_lose_state_before_move (b : Board) (c : Color)
  : result bool :=
  let? can := player_can_move b c in Ok (negb can).

Definition player_in_lose_state_after_move (b : Board) (wx wy : Z)
  : result bool :=
  let? w := _get_worker_at b wx wy in
  let? l := get_valid_builds b w in
  Ok (length l =? 0)%nat.

Definition reset (b : Board) : result Board :=
  let? blocks := np_zeros (b_length b) (b_width b) in
  Ok (set_board_blocks (set_workers b []) blocks).

(** ** GameManager (game.py) *)

Record GameState : Type := mkGameState
  { gs_active_player : Color;
    gs_board : Board;
    gs_turn_action : TurnActions;
    gs_turn : TurnArgs }.

Record GameManager : Type := mkGameManager
  { initial_board : Board;
    board : Board;
    initial_player_order : list Color;
    player_order : list Color;
    _initial_turn_order : list TurnActions;
    turn_order : list TurnActions;
    game_state_log : list GameState }.

(** [GameManager.__init__]; the caller supplies the board. *)
Definition GameManager_init (players : list Color) (b : Board) : GameManager :=
  {| initial_board := b; board := b;
     initial_player_order := players; player_order := players;
     _initial_turn_order := [MOVE; BUILD]; turn_order := [MOVE; BUILD];
     game_state_log := [] |}.

(** *** The monad of the manager's methods

    A method receives the manager, and hands back the manager as it has left
    it together with what it returned or raised. *)

Definition M (A : Type) : Type := GameManager -> GameManager * result A.

Definition ret {A} (a : A) : M A := fun gm => (gm, Ok a).

Definition raise {A} (e : Exn) : M A := fun gm => (gm, Raise e).

Definition bind {A B} (m : M A) (k : A -> M B) : M B :=
  fun gm =>
    match m gm with
    | (gm', Ok a) => k a gm'
    | (gm', Raise e) => (gm', Raise e)
    end.

(** A computation that reads the manager and may raise, without writing. *)
Definition lift {A} (f : GameManager -> result A) : M A :=
  fun gm => (gm, f gm).

Definition try_ {A} (r : result A) : M A := fun gm => (gm, r).

Definition get : M GameManager := fun gm => (gm, Ok gm).

Definition modify (f : GameManager -> GameManager) : M unit :=
  fun gm => (f gm, Ok tt).

Declare Scope gm_scope.
Delimit Scope gm_scope with gm.
Notation "'let!' x ':=' m 'in' k" := (bind m (fun x => k))
  (at level 10, x name, m at level 100, k at level 200) : gm_scope.
Notation "'do!' m 'in' k" := (bind m (fun _ => k))
  (at level 10, m at level 100, k at level 200) : gm_scope.
Open Scope gm_scope.

Definition set_board (b : Board) (gm : GameManager) : GameManager :=
  {| initial_board := initial_board gm; board := b;
     initial_player_order := initial_player_order gm;
     player_order := player_order gm;
     _initial_turn_order := _initial_turn_order gm;
     turn_order := turn_order gm;
     game_state_log := game_state_log gm |}.

Definition set_player_order (po : list Color) (gm : GameManager) : GameManager :=
  {| initial_board := initial_board gm; board := board gm;
     initial_player_order := initial_player_order gm;
     player_order := po;
     _initial_turn_order := _initial_turn_order gm;
     turn_order := turn_order gm;
     game_state_log := game_state_log gm |}.

Definition set_turn_order (tor : list TurnActions) (gm : GameManager) : GameManager :=
  {| initial_board := initial_board gm; board := board gm;
     initial_player_order := initial_player_order gm;
     player_order := player_order gm;
     _initial_turn_order := _initial_turn_order gm;
     turn_order := tor;
     game_state_log := game_state_log gm |}.

Definition log_append (gs : GameState) (gm : GameManager) : GameManager :=
  {| initial_board := initial_board gm; board := board gm;
     initial_player_order := initial_player_order gm;
     player_order := player_order gm;
     _initial_turn_order := _initial_turn_order gm;
     turn_order := turn_order gm;
     game_state_log := game_state_log gm ++ [gs] |}.

(** *** Properties *)

(** [self.player_order[0]] *)
Definition active_player (gm : GameManager) : result Color :=
  match player_order gm with
  | c :: _ => Ok c
  | [] => Raise IndexError
  end.

Definition current_turn_action (gm : GameManager) : result TurnActions :=
  let can_place_workers :=
    existsb (player_can_place_workers (board gm)) (player_order gm) in
  if can_place_workers then Ok PLACE_WORKER
  else match turn_order gm with
       | t :: _ => Ok t
       | [] => Raise IndexError
       end.

(** [self.game_state_log[-1]], or [None] for an empty log *)
Definition previous_game_state (gm : GameManager) : option GameState :=
  last (game_state_log gm).

(** [turn_coordinates[i]] on a Python list, for the literal indices 0..3 *)
Definition coord (turn_coordinates : list Z) (i : nat) : result Z :=
  match turn_coordinates !! i with
  | Some z => Ok z
  | None => Raise IndexError
  end.

(** *** Attribute lookups that find nothing

    game.py asks a [Board] for [player_in_loss_state_after_move] (lines 198
    and 318) and for [player_in_loss_state_before_move] (line 345).  Class
    [Board] has no attribute of either name: its methods are spelt
    [player_in_lose_state_after_move] and [player_in_lose_state_before_move],
    and nothing sets other attributes on an instance.  Python evaluates the
    attribute before the arguments, so each of these expressions raises
    AttributeError and calls nothing. *)

Definition Board_getattr_player_in_loss_state_after_move (b : Board)
  : result (Z -> Z -> result bool) := Raise AttributeError.

Definition Board_getattr_player_in_loss_state_before_move (b : Board)
  : result (Color -> result bool) := Raise AttributeError.

(** *** Rotations *)

(** [popleft] then [append] on the player deque *)
Definition _change_active_player : M unit :=
  let! gm := get in
  match player_order gm with
  | c :: rest => modify (set_player_order (rest ++ [c]))
  | [] => raise IndexError
  end.

Definition _change_current_turn_action : M unit :=
  let! gm := get in
  let no_player_can_place_workers :=
    forallb (fun c => negb (player_can_place_workers (board gm) c))
            (player_order gm) in
  if no_player_can_place_workers then
    match previous_game_state gm with
    | None => raise AttributeError   (* [None.turn_action] *)
    | Some prev =>
        if negb (TurnActions_eqb (gs_turn_action prev) PLACE_WORKER) then
          match turn_order gm with
          | t :: rest => modify (set_turn_order (rest ++ [t]))
          | [] => raise IndexError
          end
        else ret tt
    end
  else ret tt.

(** *** Checks *)

Definition _check_win_state_board_win_state : M bool :=
  let! gm := get in
  match previous_game_state gm with
  | None => ret false
  | Some prev =>
      let! ap := lift active_player in
      try_ (player_in_win_state (gs_board prev) ap)
  end.

Definition _check_moved_worker_before_build (build_worker_x build_worker_y : Z)
  : M unit :=
  let! gm := get in
  match previous_game_state gm with
  | None => raise IllegalMoveError
  | Some prev =>
      if TurnActions_eqb (gs_turn_action prev) MOVE then
        match gs_turn prev with
        | TurnMove previous_turn =>
            if negb (pair_eqb (end_x previous_turn, end_y previous_turn)
                              (build_worker_x, build_worker_y))
            then raise IllegalMoveError
            else ret tt
        | _ => raise AttributeError   (* no [end_x] on the other records *)
        end
      else raise IllegalMoveError
  end.

(** *** update_game_state (game.py, lines 124-248) *)

(** The end of [update_game_state], from the win check on (lines 231-248),
    which the three branches share. *)
Definition finish_turn (in_loss_state_cant_build : bool) : M unit :=
  (* Check for win/loss state *)
  let! in_win_state := _check_win_state_board_win_state in
  if negb in_win_state then
    (* Update new state *)
    let! gm1 := get in
    do! match previous_game_state gm1 with
        | Some prev =>
            if negb (TurnActions_eqb (gs_turn_action prev) MOVE)
               || in_loss_state_cant_build
            then _change_active_player
            else ret tt
        | None => ret tt
        end in
    if negb in_loss_state_cant_build then _change_current_turn_action
    else ret tt
  else ret tt.

Definition update_game_state
  (turn_action : TurnActions) (turn_coordinates : list Z)
  (expected_player : option Color) : M unit :=
  (* the debug message is formatted whatever the log level *)
  let! ap := lift active_player in
  if match expected_player with
     | Some p => negb (Color_eqb p ap)
     | None => false
     end
  then raise IllegalMoveError
  else
  let! required := lift current_turn_action in
  if negb (TurnActions_eqb turn_action required) then raise IllegalMoveError
  else
  let! gm := get in
  let board0 := board gm in            (* deepcopy(self.board) *)
  let! after :=
    match turn_action with
    | PLACE_WORKER =>
        let! x := try_ (coord turn_coordinates 0) in
        let! y := try_ (coord turn_coordinates 1) in
        let! board1 := try_ (place_worker board0 ap x y) in
        do! modify (log_append
              (mkGameState ap board1 PLACE_WORKER
                 (TurnPlace (mkPlaceWorkerTurn ap x y)))) in
        ret (board1, false)
    | MOVE =>
        let! sx := try_ (coord turn_coordinates 0) in
        let! sy := try_ (coord turn_coordinates 1) in
        let! ex := try_ (coord turn_coordinates 2) in
        let! ey := try_ (coord turn_coordinates 3) in
        let! board1 := try_ (move board0 ap sx sy ex ey) in
        do! modify (log_append
              (mkGameState ap board1 MOVE
                 (TurnMove (mkMoveTurn ap sx sy ex ey)))) in
        (* check for loss state *)
        let! check := try_ (Board_getattr_player_in_loss_state_after_move board1) in
        let! in_loss_state_cant_build := try_ (check ex ey) in
        ret (board1, in_loss_state_cant_build)
    | BUILD =>
        let! wx := try_ (coord turn_coordinates 0) in
        let! wy := try_ (coord turn_coordinates 1) in
        do! _check_moved_worker_before_build wx wy in
        let! bx := try_ (coord turn_coordinates 2) in
        let! by_ := try_ (coord turn_coordinates 3) in
        let! board1 := try_ (build board0 ap wx wy bx by_) in
        do! modify (log_append
              (mkGameState ap board1 BUILD
                 (TurnBuild (mkBuildTurn ap wx wy bx by_)))) in
        ret (board1, false)
    end in
  let board1 := fst after in
  let in_loss_state_cant_build := snd after in
  do! modify (set_board board1) in
  finish_turn in_loss_state_cant_build.

(** *** End-of-turn bookkeeping (game.py, lines 282-364) *)

(** [deque.remove]: drops the first occurrence, raises when there is none. *)
Fixpoint deque_remove (c : Color) (l : list Color) : result (list Color) :=
  match l with
  | [] => Raise ValueError
  | d :: l' =>
      if Color_eqb d c then Ok l'
      else let? r := deque_remove c l' in Ok (d :: r)
  end.

Definition _check_loss_state_player_cant_build : M unit :=
  let! gm := get in
  match previous_game_state gm with
  | Some prev =>
      if negb (length (player_order gm) =? 1)%nat
         && TurnActions_eqb (gs_turn_action prev) MOVE
      then
        let! check :=
          try_ (Board_getattr_player_in_loss_state_after_move (gs_board prev)) in
        let! xy := match gs_turn prev with
                   | TurnMove t => ret (end_x t, end_y t)
                   | _ => raise AttributeError
                   end in
        let! in_loss_state_cant_build := try_ (check (fst xy) (snd xy)) in
        if in_loss_state_cant_build then
          let! po := try_ (deque_remove (gs_active_player prev) (player_order gm)) in
          modify (set_player_order po)
        else ret tt
      else ret tt
  | None => ret tt
  end.

Definition _check_loss_state_player_cant_move : M unit :=
  let! gm := get in
  match previous_game_state gm with
  | Some prev =>
      if negb (length (player_order gm) =? 1)%nat then
        let! required := lift current_turn_action in
        if TurnActions_eqb required MOVE then
          let! check :=
            try_ (Board_getattr_player_in_loss_state_before_move (gs_board prev)) in
          let! ap := lift active_player in
          let! in_loss_state := try_ (check ap) in
          if in_loss_state then
            let! ap' := lift active_player in
            let! po := try_ (deque_remove ap' (player_order gm)) in
            modify (set_player_order po)
          else ret tt
        else ret tt
      else ret tt
  | None => ret tt
  end.

Definition _check_win_state_one_player_left : M bool :=
  let! gm := get in
  if (length (player_order gm) =? 1)%nat then
    (* the message names [self.active_player] *)
    let! _winner := lift active_player in
    ret true
  else ret false.

Definition _in_end_game_state : M bool :=
  do! _check_loss_state_player_cant_build in
  do! _check_loss_state_player_cant_move in
  let! is_in_end_game_state := _check_win_state_one_player_left in
  if negb is_in_end_game_state then _check_win_state_board_win_state
  else ret is_in_end_game_state.

(** ** Sequences of board operations *)

Inductive BoardOp : Type :=
| OpPlace (c : Color) (x y : Z)
| OpMove (c : Color) (sx sy ex ey : Z)
| OpBuild (c : Color) (wx wy bx by_ : Z)
| OpReset.

Definition apply_op (b : Board) (op : BoardOp) : result Board :=
  match op with
  | OpPlace c x y => place_worker b c x y
  | OpMove c sx sy ex ey => move b c sx sy ex ey
  | OpBuild c wx wy bx by_ => build b c wx wy bx by_
  | OpReset => reset b
  end.

(** Every operation of the sequence succeeds, and the last board is kept. *)
Fixpoint run_ops (b : Board) (ops : list BoardOp) : result Board :=
  match ops with
  | [] => Ok b
  | op :: ops' => let? b' := apply_op b op in run_ops b' ops'
  end.

(** Each placement of the sequence lands on a cell of the grid that carries
    no building at that moment. *)
Fixpoint places_on_ground (b : Board) (ops : list BoardOp) : bool :=
  match ops with
  | [] => true
  | op :: ops' =>
      match op with
      | OpPlace _ x y =>
          _is_on_board b x y
          && match _block_height b x y with
             | Ok h => h =? 0
             | Raise _ => false
             end
      | _ => true
      end
      && match apply_op b op with
         | Ok b' => places_on_ground b' ops'
         | Raise _ => true
         end
  end.

(** ** Predicates used in the statements *)

(** The grid has the shape the constructor gave it. *)
Definition wf_blocks (b : Board) : Prop :=
  length (board_blocks b) = Z.to_nat (b_length b)
  /\ Forall (fun row => length row = Z.to_nat (b_width b)) (board_blocks b).

Definition in_grid (b : Board) (x y : Z) : Prop :=
  0 <= x < b_width b /\ 0 <= y < b_length b.

Definition unoccupied (b : Board) (x y : Z) : Prop :=
  forall w, In w (workers b) -> ~ (w_x w = x /\ w_y w = y).

(** One of the eight cells around (x0, y0). *)
Definition neighbor_of (x0 y0 x y : Z) : Prop :=
  Z.max (Z.abs (x - x0)) (Z.abs (y - y0)) = 1.

(** What both enumerations promise of a target (x, y) for the worker [w]. *)
Definition valid_target (b : Board) (w : Worker) (x y : Z) : Prop :=
  in_grid b x y
  /\ unoccupied b x y
  /\ neighbor_of (w_x w) (w_y w) x y
  /\ exists h, _block_height b x y = Ok h /\ h < max_height b.

(** Every worker records the height of the cell it stands on. *)
Definition heights_in_sync (b : Board) : Prop :=
  forall w, In w (workers b) ->
            _block_height b (w_x w) (w_y w) = Ok (w_height w).

(** The invariant carried along a sequence of operations: the grid keeps its
    shape, and every worker stands inside it at the height of its cell. *)
Definition grounded (b : Board) : Prop :=
  wf_blocks b
  /\ forall w, In w (workers b) ->
               in_grid b (w_x w) (w_y w)
               /\ _block_height b (w_x w) (w_y w) = Ok (w_height w).

(** How many workers of [c] record the height [max_height - 1]. *)
Definition count_at_top (b : Board) (c : Color) : nat :=
  length (List.filter
            (fun w => Color_eqb (w_color w) c && (w_height w =? max_height b - 1))
            (workers b)).

(** The call has appended one snapshot and cached the board of that
    snapshot. *)
Definition committed (gm gm' : GameManager) : Prop :=
  exists gs, game_state_log gm' = game_state_log gm ++ [gs]
             /\ board gm' = gs_board gs.

(** What a call may leave behind: the commit, or an exception and the
    manager as it was. *)
Definition all_or_nothing (gm : GameManager) (res : GameManager * result unit)
  : Prop :=
  committed gm (fst res) \/ ((exists e, snd res = Raise e) /\ fst res = gm).

(** The log and the cached board are those of [gm]. *)
Definition same_log_and_board (gm gm' : GameManager) : Prop :=
  game_state_log gm' = game_state_log gm /\ board gm' = board gm.

(** ** Concrete games *)

(** A 3 x 3 board, [max_height = 2], one worker per player. *)
Definition board_3x3 : Board :=
  {| b_length := 3; b_width := 3; max_height := 2;
     max_workers_per_player := 1; workers := [];
     board_blocks := [[0; 0; 0]; [0; 0; 0]; [0; 0; 0]] |}.

Definition game_start : GameManager := GameManager_init [BLUE; WHITE] board_3x3.

Definition game_placed : GameManager :=
  fst (update_game_state PLACE_WORKER [1; 1] None
         (fst (update_game_state PLACE_WORKER [0; 0] None game_start))).

Definition game_moved : GameManager :=
  fst (update_game_state MOVE [0; 0; 1; 0] None game_placed).

(** The manager that a completed move BLUE (0,0) -> (1,0) leaves behind: the
    moved board cached and BUILD at the head of the phase rotation. *)
Definition game_build_due : GameManager :=
  set_turn_order [BUILD; MOVE]
    (set_board
       (set_workers board_3x3 [mkWorker 1 0 0 BLUE; mkWorker 1 1 0 WHITE])
       game_moved).

(** A board of two cells side by side, one worker per player. *)
Definition board_2x1 : Board :=
  {| b_length := 1; b_width := 2; max_height := 4;
     max_workers_per_player := 1; workers := [];
     board_blocks := [[0; 0]] |}.

Definition game_blocked : GameManager :=
  fst (update_game_state PLACE_WORKER [1; 0] None
         (fst (update_game_state PLACE_WORKER [0; 0] None
                 (GameManager_init [BLUE; WHITE] board_2x1)))).

(** The default board, 5 x 5 with two workers per player. *)
Definition board_5x5 : Board :=
  {| b_length := 5; b_width := 5; max_height := 4;
     max_workers_per_player := 2; workers := [];
     board_blocks := replicate 5 (replicate 5 0) |}.

(** ** Further methods of the board and of the manager *)

(** [range(n)] *)
Definition range (n : Z) : list Z := map Z.of_nat (seq 0 (Z.to_nat n)).

(** [Board.get_valid_placements] (board.py, lines 335-354) *)
Definition get_valid_placements (b : Board) (c : Color) : list PlaceWorkerTurn :=
  let placement_coordinates := product (range (b_width b)) (range (b_length b)) in
  let placement_coordinates :=
    List.filter (fun xy => is_valid_placement b c (fst xy) (snd xy))
                placement_coordinates in
  map (fun xy => mkPlaceWorkerTurn c (fst xy) (snd xy)) placement_coordinates.

(** [Board.is_valid_turn] (board.py, lines 317-333); [and] does not look at
    the build when the move is not valid. *)
Definition is_valid_turn (b : Board) (w : Worker) (move_x move_y build_x build_y : Z)
  : result bool :=
  let? valid_move := is_valid_move b w move_x move_y in
  if valid_move then is_valid_build b w build_x build_y else Ok false.

(** [Board._has_block] (board.py, lines 415-417); nothing guards the index. *)
Definition _has_block (b : Board) (x y : Z) : result bool :=
  let? h := _block_height b x y in Ok (0 <? h).

(** [np.full(shape=(length, width), fill_value=v)] *)
Definition np_full {A} (length width : Z) (v : A) : result (list (list A)) :=
  if (length <? 0) || (width <? 0) then Raise ValueError
  else Ok (replicate (Z.to_nat length) (replicate (Z.to_nat width) v)).

(** [board_workers[worker.y][worker.x] = v]: the row is a view. *)
Definition np_setitem2 {A} (a : list (list A)) (y x : Z) (v : A)
  : result (list (list A)) :=
  let? row := np_getitem a y in
  let? row' := np_setitem row x v in
  np_setitem a y row'.

Declare Scope pystr_scope.
Delimit Scope pystr_scope with pystr.
String Notation String.string String.string_of_list_byte
  String.list_byte_of_string : pystr_scope.

(** [Color.value] *)
Definition Color_value (c : Color) : String.string :=
  match c with
  | BLUE => "b"%pystr
  | WHITE => "w"%pystr
  end.

(** [Board._workers_board] (board.py, lines 158-165) *)
Definition _workers_board (b : Board) : result (list (list String.string)) :=
  let? board_workers := np_full (b_length b) (b_width b) " "%pystr in
  fold_left (fun acc w => let? a := acc in
                          np_setitem2 a (w_y w) (w_x w) (Color_value (w_color w)))
            (workers b) (Ok board_workers).

(** [GameManager.reset] (game.py, lines 413-418) *)
Definition GameManager_reset : M unit :=
  modify (fun gm =>
            {| initial_board := initial_board gm;
               board := initial_board gm;
               initial_player_order := initial_player_order gm;
               player_order := initial_player_order gm;
               _initial_turn_order := _initial_turn_order gm;
               turn_order := _initial_turn_order gm;
               game_state_log := [] |}).

(** One call of [update_game_state], as the log reader and the game loop
    issue them. *)
Record Call : Type := mkCall
  { call_action : TurnActions;
    call_coordinates : list Z;
    call_player : option Color }.

(** The calls are made one after the other, whatever each one returns or
    raises; the manager they leave is kept. *)
Fixpoint run_calls (calls : list Call) (gm : GameManager) : GameManager :=
  match calls with
  | [] => gm
  | c :: calls' =>
      run_calls calls'
        (fst (update_game_state (call_action c) (call_coordinates c)
                                (call_player c) gm))
  end.

(** [n] rotations of the player deque *)
Fixpoint rotate_players (n : nat) (gm : GameManager) : GameManager :=
  match n with
  | O => gm
  | S n' => rotate_players n' (fst (_change_active_player gm))
  end.

(** ** Further predicates *)

Definition position (w : Worker) : Z * Z := (w_x w, w_y w).

(** The parameters given to the constructor. *)
Definition same_parameters (b b' : Board) : Prop :=
  b_length b' = b_length b /\ b_width b' = b_width b
  /\ max_height b' = max_height b
  /\ max_workers_per_player b' = max_workers_per_player b.

(** Every cell of the grid lies between the ground and [max_height]. *)
Definition heights_bounded (b : Board) : Prop :=
  Forall (Forall (fun h => 0 <= h <= Z.max 0 (max_height b))) (board_blocks b).

(** A grid of [rows] rows of [cols] cells. *)
Definition has_shape {A} (rows cols : Z) (a : list (list A)) : Prop :=
  length a = Z.to_nat rows /\ Forall (fun r => length r = Z.to_nat cols) a.

(** The cell (x, y) of a grid, read by plain positions. *)
Definition cell {A} (a : list (list A)) (x y : Z) : option A :=
  match a !! Z.to_nat y with
  | Some row => row !! Z.to_nat x
  | None => None
  end.

(** The log and the three fields that [__init__] keeps for [reset] are those
    of [gm]. *)
Definition same_log_and_initial (gm gm' : GameManager) : Prop :=
  game_state_log gm' = game_state_log gm
  /\ initial_board gm' = initial_board gm
  /\ initial_player_order gm' = initial_player_order gm
  /\ _initial_turn_order gm' = _initial_turn_order gm.

(** The fields that [__init__] keeps for [reset] are those of [gm]. *)
Definition same_initial (gm gm' : GameManager) : Prop :=
  initial_board gm' = initial_board gm
  /\ initial_player_order gm' = initial_player_order gm
  /\ _initial_turn_order gm' = _initial_turn_order gm.

(** The shape of every call: it stops before it has written anything, or it
    has appended one snapshot, and then either the end of the call runs on
    the manager with the board cached, or (for a MOVE) the lookup of the loss
    test raises with the board not cached. *)
Definition call_shape (gm : GameManager) (turn_action : TurnActions)
           (res : GameManager * result unit) : Prop :=
  (exists e, res = (gm, Raise e))
  \/ (turn_action <> MOVE
      /\ exists gs in_loss,
           gs_turn_action gs = turn_action
           /\ res = finish_turn in_loss
                       (set_board (gs_board gs) (log_append gs gm)))
  \/ (turn_action = MOVE
      /\ exists gs,
           gs_turn_action gs = MOVE
           /\ res = (log_append gs gm, Raise AttributeError)).

(** The cached board is the board of the last snapshot, or the initial board
    while nothing is logged. *)
Definition cache_matches_log (gm : GameManager) : Prop :=
  match previous_game_state gm with
  | Some gs => board gm = gs_board gs
  | None => board gm = initial_board gm
  end.

(** A computation that keeps the log and the initial fields, and does not
    raise IllegalMoveError. *)
Definition quiet {A} (m : M A) : Prop :=
  forall gm, same_log_and_initial gm (fst (m gm))
             /\ snd (m gm) <> Raise IllegalMoveError.

(** ** Counting and reading, apart from the code *)

(** Equality of colours is decidable. *)
Definition Color_eq_dec (a b : Color) : {a = b} + {a <> b}.
Proof. decide equality. Defined.

(** How many workers of colour [c] stand on the board: the occurrences of
    [c] among the colours of the workers. *)
Definition placed_workers (b : Board) (c : Color) : nat :=
  count_occ Color_eq_dec (map w_color (workers b)) c.

(** The operation neither empties the board nor moves a worker away from
    (x, y). *)
Definition leaves_cell_alone (x y : Z) (op : BoardOp) : bool :=
  match op with
  | OpReset => false
  | OpMove _ sx sy _ _ => negb ((sx =? x) && (sy =? y))
  | OpPlace _ _ _ | OpBuild _ _ _ _ _ => true
  end.

(** The game after the first placement only: BLUE has its worker, WHITE has
    none. *)
Definition game_first_placed : GameManager :=
  fst (update_game_state PLACE_WORKER [0; 0] None game_start).

(** A 3 x 3 board with one level built in the middle and BLUE in a corner. *)
Definition board_with_a_step : Board :=
  {| b_length := 3; b_width := 3; max_height := 2;
     max_workers_per_player := 1;
     workers := [mkWorker 0 0 0 BLUE];
     board_blocks := [[0; 0; 0]; [0; 1; 0]; [0; 0; 0]] |}.

(** * Properties *)

(** ** Equality tests *)

Lemma Color_eqb_eq (a b : Color) : Color_eqb a b = true <-> a = b.
Proof. destruct a, b; simpl; split; congruence. Qed.

Lemma Color_eqb_refl (a : Color) : Color_eqb a a = true.
Proof. now destruct a. Qed.

Lemma TurnActions_eqb_eq (a b : TurnActions) : TurnActions_eqb a b = true <-> a = b.
Proof. destruct a, b; simpl; split; congruence. Qed.

Lemma TurnActions_eqb_neq (a b : TurnActions) : TurnActions_eqb a b = false <-> a <> b.
Proof. destruct a, b; simpl; split; congruence. Qed.

Lemma pair_eqb_eq (p q : Z * Z) : pair_eqb p q = true <-> p = q.
Proof.
  destruct p as [a b], q as [c d]; unfold pair_eqb; simpl.
  rewrite andb_true_iff, !Z.eqb_eq. split.
  - intros [-> ->]; reflexivity.
  - intros [= -> ->]; auto.
Qed.

Lemma at_xy_true (x y : Z) (w : Worker) :
  at_xy x y w = true <-> w_x w = x /\ w_y w = y.
Proof. unfold at_xy. now rewrite andb_true_iff, !Z.eqb_eq. Qed.

Lemma _worker_on_space_false (b : Board) (x y : Z) :
  _worker_on_space b x y = false <-> unoccupied b x y.
Proof.
  unfold _worker_on_space, unoccupied. split.
  - intros H w Hw Hxy. apply at_xy_true in Hxy.
    assert (existsb (at_xy x y) (workers b) = true) as E
        by (apply existsb_exists; eauto).
    congruence.
  - intros H. destruct (existsb (at_xy x y) (workers b)) eqn:E; [|reflexivity].
    apply existsb_exists in E as (w & Hw & Hxy).
    apply at_xy_true in Hxy. now destruct (H w Hw).
Qed.

(** ** The win test of the board *)

Lemma filter_filter_andb {A} (f g : A -> bool) (l : list A) :
  List.filter g (List.filter f l) = List.filter (fun a => f a && g a) l.
Proof.
  induction l as [|a l IH]; simpl; [reflexivity|].
  destruct (f a); simpl; [destruct (g a)|]; now rewrite IH.
Qed.

Lemma workers_at_max_height_count (b : Board) (c : Color) :
  length (workers_at_max_height b c) = count_at_top b c.
Proof.
  unfold workers_at_max_height, get_workers_with_color, count_at_top.
  now rewrite filter_filter_andb.
Qed.

(** C6. [player_in_win_state] answers [True] exactly when one worker of the
    player records the height [max_height - 1], answers [False] when none
    does, and raises IllegalBoardStateError when more than one does. *)
Theorem player_in_win_state_spec (b : Board) (c : Color) :
  (player_in_win_state b c = Ok true <-> count_at_top b c = 1%nat)
  /\ (count_at_top b c = 0%nat -> player_in_win_state b c = Ok false)
  /\ ((1 < count_at_top b c)%nat ->
      player_in_win_state b c = Raise IllegalBoardStateError).
Proof.
  unfold player_in_win_state. rewrite workers_at_max_height_count.
  destruct (count_at_top b c) as [|[|n]]; simpl.
  - repeat split; intros; try reflexivity; try lia; discriminate.
  - repeat split; intros; try reflexivity; lia.
  - repeat split; intros; try reflexivity; try lia; discriminate.
Qed.

Lemma player_in_win_state_spec_witness :
  (count_at_top (set_workers board_3x3 [mkWorker 0 0 1 BLUE; mkWorker 1 1 1 BLUE]) BLUE
   = 2%nat)
  /\ player_in_win_state
       (set_workers board_3x3 [mkWorker 0 0 1 BLUE; mkWorker 1 1 1 BLUE]) BLUE
     = Raise IllegalBoardStateError.
Proof.
  split; [reflexivity|].
  apply (player_in_win_state_spec
           (set_workers board_3x3 [mkWorker 0 0 1 BLUE; mkWorker 1 1 1 BLUE]) BLUE).
  vm_compute. lia.
Defined.

(** ** Placement *)

(** C10. [place_worker] checks the cap and the occupation of the cell and
    nothing else: under the cap and on coordinates that no worker holds it
    appends a worker of height 0, also outside the grid, where
    [is_valid_placement] answers [False]. *)
Theorem place_worker_no_bounds_check (b : Board) (c : Color) (x y : Z) :
  _num_workers b c < max_workers_per_player b ->
  unoccupied b x y ->
  place_worker b c x y = Ok (set_workers b (workers b ++ [mkWorker x y 0 c]))
  /\ (~ in_grid b x y -> is_valid_placement b c x y = false).
Proof.
  intros Hcap Hfree. apply _worker_on_space_false in Hfree.
  unfold place_worker, is_valid_placement, player_can_place_workers.
  apply Z.ltb_lt in Hcap. rewrite Hcap, Hfree. simpl. split; [reflexivity|].
  intros Hout. destruct (_is_on_board b x y) eqn:E; [|reflexivity].
  exfalso. apply Hout. unfold _is_on_board in E. unfold in_grid.
  rewrite !andb_true_iff, !Z.leb_le, !Z.ltb_lt in E. lia.
Qed.

Lemma place_worker_no_bounds_check_witness :
  place_worker board_5x5 BLUE 7 (-3)
  = Ok (set_workers board_5x5 [mkWorker 7 (-3) 0 BLUE])
  /\ is_valid_placement board_5x5 BLUE 7 (-3) = false.
Proof.
  destruct (place_worker_no_bounds_check board_5x5 BLUE 7 (-3)) as [Hp Hv].
  - vm_compute. reflexivity.
  - intros w Hw. destruct Hw.
  - split; [exact Hp|]. apply Hv. unfold in_grid. simpl. lia.
Defined.

(** ** The required phase *)

Lemma existsb_can_place (b : Board) (players : list Color) :
  existsb (player_can_place_workers b) players = true
  <-> exists c, In c players /\ _num_workers b c < max_workers_per_player b.
Proof.
  rewrite existsb_exists. unfold player_can_place_workers.
  split; intros (c & Hc & H); exists c; split; auto; now apply Z.ltb_lt.
Qed.

Lemma _num_workers_placed (b : Board) (c : Color) :
  _num_workers b c = Z.of_nat (placed_workers b c).
Proof.
  unfold _num_workers, placed_workers. f_equal.
  induction (workers b) as [|w ws IH]; simpl; [reflexivity|].
  destruct (Color_eq_dec (w_color w) c) as [-> | Hne].
  - rewrite Color_eqb_refl. simpl. now rewrite IH.
  - destruct (Color_eqb (w_color w) c) eqn:E; [|exact IH].
    apply Color_eqb_eq in E. contradiction.
Qed.

(** C4. The required phase is PLACE_WORKER exactly when some player of the
    rotation has fewer workers on the current board than the cap; when none
    has, it is the head of the MOVE/BUILD rotation.  The workers of a player
    are counted as the occurrences of the player's colour among the workers
    of the board. *)
Theorem current_turn_action_spec (gm : GameManager) (t : TurnActions)
        (rest : list TurnActions) :
  turn_order gm = t :: rest ->
  t <> PLACE_WORKER ->
  (current_turn_action gm = Ok PLACE_WORKER
   <-> exists c, In c (player_order gm)
                 /\ Z.of_nat (placed_workers (board gm) c)
                    < max_workers_per_player (board gm))
  /\ (~ (exists c, In c (player_order gm)
                   /\ Z.of_nat (placed_workers (board gm) c)
                      < max_workers_per_player (board gm))
      -> current_turn_action gm = Ok t).
Proof.
  intros Hto Ht.
  assert ((exists c, In c (player_order gm)
                     /\ Z.of_nat (placed_workers (board gm) c)
                        < max_workers_per_player (board gm))
          <-> existsb (player_can_place_workers (board gm)) (player_order gm) = true)
    as Hcount.
  { rewrite existsb_can_place.
    split; intros (c & Hc & H); exists c; split; auto;
      [rewrite _num_workers_placed | rewrite <- _num_workers_placed]; exact H. }
  unfold current_turn_action. rewrite Hto. rewrite Hcount.
  destruct (existsb (player_can_place_workers (board gm)) (player_order gm)).
  - split; [tauto|]. intros H. now destruct H.
  - split; [|reflexivity]. split; [|discriminate].
    intros [= ->]. now destruct Ht.
Qed.

Lemma current_turn_action_spec_witness :
  current_turn_action game_start = Ok PLACE_WORKER
  /\ current_turn_action game_first_placed = Ok PLACE_WORKER
  /\ current_turn_action game_placed = Ok MOVE.
Proof.
  split; [|split].
  - apply (current_turn_action_spec game_start MOVE [BUILD]);
      [reflexivity | discriminate |].
    exists BLUE. split; [left; reflexivity | vm_compute; reflexivity].
  - apply (current_turn_action_spec game_first_placed MOVE [BUILD]);
      [reflexivity | discriminate |].
    exists WHITE. split; [left; reflexivity | vm_compute; reflexivity].
  - apply (current_turn_action_spec game_placed MOVE [BUILD]);
      [reflexivity | discriminate |].
    intros (c & Hc & H). vm_compute in Hc.
    destruct Hc as [<- | [<- | []]]; vm_compute in H; discriminate.
Defined.

(** ** Building needs the worker that has just moved *)

Ltac unfold_M :=
  unfold bind, lift, try_, get, ret, raise, modify in *.

(** The check raises IllegalMoveError, and writes nothing, on an empty log,
    after an action that is no move, and for a worker that is not where the
    last move ended. *)
Lemma _check_moved_worker_before_build_rejects (gm : GameManager) (wx wy : Z) :
  game_state_log gm = []
  \/ (exists prev, last (game_state_log gm) = Some prev
                   /\ gs_turn_action prev <> MOVE)
  \/ (exists prev t, last (game_state_log gm) = Some prev
                     /\ gs_turn prev = TurnMove t
                     /\ (end_x t, end_y t) <> (wx, wy)) ->
  _check_moved_worker_before_build wx wy gm = (gm, Raise IllegalMoveError).
Proof.
  unfold _check_moved_worker_before_build, previous_game_state. unfold_M.
  intros [Hlog | [(prev & Hprev & Hact) | (prev & t & Hprev & Hturn & Hxy)]].
  - now rewrite Hlog.
  - rewrite Hprev. apply TurnActions_eqb_neq in Hact. now rewrite Hact.
  - rewrite Hprev, Hturn.
    destruct (TurnActions_eqb (gs_turn_action prev) MOVE); [|reflexivity].
    destruct (pair_eqb (end_x t, end_y t) (wx, wy)) eqn:E; [|reflexivity].
    apply pair_eqb_eq in E. contradiction.
Qed.

(** C3. On a manager whose two rotations are not empty, a BUILD naming the
    worker at (wx, wy) raises IllegalMoveError and leaves the manager as it
    was whenever the log is empty, or the last logged action is no MOVE, or
    the last logged MOVE ended elsewhere than (wx, wy). *)
Theorem build_needs_the_moved_worker
        (gm : GameManager) (wx wy : Z) (rest : list Z)
        (expected_player : option Color) :
  player_order gm <> [] ->
  turn_order gm <> [] ->
  game_state_log gm = []
  \/ (exists prev, last (game_state_log gm) = Some prev
                   /\ gs_turn_action prev <> MOVE)
  \/ (exists prev t, last (game_state_log gm) = Some prev
                     /\ gs_turn prev = TurnMove t
                     /\ (end_x t, end_y t) <> (wx, wy)) ->
  update_game_state BUILD (wx :: wy :: rest) expected_player gm
  = (gm, Raise IllegalMoveError).
Proof.
  intros Hpo Hto Hprev.
  pose proof (_check_moved_worker_before_build_rejects gm wx wy Hprev) as Hcheck.
  unfold update_game_state, active_player, current_turn_action. unfold_M.
  destruct (player_order gm) as [|p ps] eqn:Ep; [contradiction|].
  destruct (match expected_player with
            | Some p0 => negb (Color_eqb p0 p)
            | None => false
            end); [reflexivity|].
  cbv beta. rewrite Ep.
  destruct (existsb (player_can_place_workers (board gm)) (p :: ps));
    [reflexivity|].
  destruct (turn_order gm) as [|t ts]; [contradiction|].
  destruct t; try reflexivity.
  simpl. now rewrite Hcheck.
Qed.

Lemma build_needs_the_moved_worker_witness :
  update_game_state BUILD [0; 0; 2; 0] (Some BLUE) game_build_due
  = (game_build_due, Raise IllegalMoveError).
Proof.
  apply (build_needs_the_moved_worker game_build_due 0 0 [2; 0] (Some BLUE)).
  - discriminate.
  - discriminate.
  - right. right.
    exists (mkGameState BLUE
              (set_workers board_3x3 [mkWorker 1 0 0 BLUE; mkWorker 1 1 0 WHITE])
              MOVE (TurnMove (mkMoveTurn BLUE 0 0 1 0))).
    exists (mkMoveTurn BLUE 0 0 1 0).
    split; [vm_compute; reflexivity|]. split; [reflexivity|].
    simpl. discriminate.
Defined.

(** ** Array indexing inside the grid *)

Lemma np_index_inside (n : nat) (i : Z) :
  0 <= i < Z.of_nat n -> np_index n i = Ok (Z.to_nat i).
Proof.
  intros H. unfold np_index.
  replace (0 <=? i) with true by (symmetry; apply Z.leb_le; lia).
  replace (i <? Z.of_nat n) with true by (symmetry; apply Z.ltb_lt; lia).
  reflexivity.
Qed.

Lemma np_getitem_inside {A} (l : list A) (i : Z) :
  0 <= i < Z.of_nat (length l) ->
  exists a, l !! Z.to_nat i = Some a /\ np_getitem l i = Ok a.
Proof.
  intros H. unfold np_getitem. rewrite np_index_inside by exact H. simpl.
  destruct (lookup_lt_is_Some_2 l (Z.to_nat i)) as [a Ha]; [lia|].
  exists a. now rewrite Ha.
Qed.

Lemma np_setitem_inside {A} (l : list A) (i : Z) (a : A) :
  0 <= i < Z.of_nat (length l) ->
  np_setitem l i a = Ok (<[Z.to_nat i := a]> l).
Proof.
  intros H. unfold np_setitem. now rewrite np_index_inside by exact H.
Qed.

Lemma _is_on_board_in_grid (b : Board) (x y : Z) :
  _is_on_board b x y = true <-> in_grid b x y.
Proof.
  unfold _is_on_board, in_grid.
  rewrite !andb_true_iff, !Z.leb_le, !Z.ltb_lt. tauto.
Qed.

(** Inside a grid of the right shape a cell is read by plain positions. *)
Lemma _block_height_inside (b : Board) (x y : Z) :
  wf_blocks b -> in_grid b x y ->
  exists row h, board_blocks b !! Z.to_nat y = Some row
                /\ row !! Z.to_nat x = Some h
                /\ _block_height b x y = Ok h.
Proof.
  intros [Hlen Hrows] [Hx Hy]. unfold _block_height.
  destruct (np_getitem_inside (board_blocks b) y) as (row & Hrow & ->); [lia|].
  simpl.
  assert (length row = Z.to_nat (b_width b)) as Hw.
  { rewrite Forall_forall in Hrows. apply Hrows.
    apply list_elem_of_lookup. eauto. }
  destruct (np_getitem_inside row x) as (h & Hh & ->); [lia|].
  eauto.
Qed.

(** ** The eight neighbours *)

Lemma _is_neighboring_space_spec (w : Worker) (x y : Z) :
  _is_neighboring_space w x y = true <-> neighbor_of (w_x w) (w_y w) x y.
Proof.
  unfold _is_neighboring_space, neighbor_of.
  change _neighboring_shifts
    with [(0, -1); (0, 1); (-1, 0); (-1, -1); (-1, 1); (1, 0); (1, -1); (1, 1)].
  unfold existsb, pair_eqb; simpl fst; simpl snd.
  rewrite !orb_true_iff, !andb_true_iff, !Z.eqb_eq. lia.
Qed.

(** ** What a valid move and a valid build are *)

Lemma is_valid_move_true (b : Board) (w : Worker) (x y : Z) :
  is_valid_move b w x y = Ok true ->
  valid_target b w x y
  /\ exists h, _block_height b x y = Ok h /\ h <= w_height w + 1.
Proof.
  unfold is_valid_move, valid_target.
  destruct (_is_on_board b x y) eqn:Eb; [|discriminate].
  apply _is_on_board_in_grid in Eb.
  destruct (_block_height b x y) as [h|e]; simpl; [|discriminate].
  intros [= H]. rewrite !andb_true_iff, negb_true_iff in H.
  destruct H as [[[H1 H2] H3] H4].
  apply Z.leb_le in H1. apply Z.ltb_lt in H2.
  apply _worker_on_space_false in H3. apply _is_neighboring_space_spec in H4.
  eauto 10.
Qed.

Lemma is_valid_build_true (b : Board) (w : Worker) (x y : Z) :
  is_valid_build b w x y = Ok true -> valid_target b w x y.
Proof.
  unfold is_valid_build, valid_target.
  destruct (_is_on_board b x y) eqn:Eb; [|discriminate].
  apply _is_on_board_in_grid in Eb.
  destruct (_block_height b x y) as [h|e]; simpl; [|discriminate].
  intros [= H]. rewrite !andb_true_iff, negb_true_iff in H.
  destruct H as [[H2 H3] H4].
  apply Z.ltb_lt in H2.
  apply _worker_on_space_false in H3. apply _is_neighboring_space_spec in H4.
  eauto 10.
Qed.

Lemma is_valid_move_total (b : Board) (w : Worker) (x y : Z) :
  wf_blocks b -> exists v, is_valid_move b w x y = Ok v.
Proof.
  intros Hwf. unfold is_valid_move.
  destruct (_is_on_board b x y) eqn:Eb; [|eauto].
  apply _is_on_board_in_grid in Eb.
  destruct (_block_height_inside b x y Hwf Eb) as (row & h & _ & _ & ->).
  simpl. eauto.
Qed.

Lemma is_valid_build_total (b : Board) (w : Worker) (x y : Z) :
  wf_blocks b -> exists v, is_valid_build b w x y = Ok v.
Proof.
  intros Hwf. unfold is_valid_build.
  destruct (_is_on_board b x y) eqn:Eb; [|eauto].
  apply _is_on_board_in_grid in Eb.
  destruct (_block_height_inside b x y Hwf Eb) as (row & h & _ & _ & ->).
  simpl. eauto.
Qed.

(** ** Filtering with a test that may raise *)

Lemma filter_r_In {A} (f : A -> result bool) (l l' : list A) (a : A) :
  filter_r f l = Ok l' -> In a l' -> In a l /\ f a = Ok true.
Proof.
  revert l'. induction l as [|x l IH]; simpl; intros l' H Ha.
  - injection H as <-. destruct Ha.
  - destruct (f x) as [keep|e] eqn:Ex; simpl in H; [|discriminate].
    destruct (filter_r f l) as [rest|e]; simpl in H; [|discriminate].
    injection H as <-. destruct keep.
    + destruct Ha as [<- | Ha]; [auto|].
      destruct (IH rest eq_refl Ha). auto.
    + destruct (IH rest eq_refl Ha). auto.
Qed.

Lemma filter_r_total {A} (f : A -> result bool) (l : list A) :
  (forall a, exists v, f a = Ok v) -> exists l', filter_r f l = Ok l'.
Proof.
  intros Hf. induction l as [|x l [rest IH]]; simpl; [eauto|].
  destruct (Hf x) as [v ->]. rewrite IH. simpl. eauto.
Qed.

(** ** The enumerations of targets *)

Lemma get_valid_moves_In (b : Board) (w : Worker) (l : list MoveTurn) (m : MoveTurn) :
  get_valid_moves b w = Ok l -> In m l ->
  is_valid_move b w (end_x m) (end_y m) = Ok true
  /\ start_x m = w_x w /\ start_y m = w_y w /\ mt_color m = w_color w.
Proof.
  unfold get_valid_moves. intros H Hm.
  destruct (filter_r _ (neighbor_coordinates w)) as [cs|e] eqn:Ef;
    simpl in H; [|discriminate].
  injection H as <-. apply in_map_iff in Hm as ([x y] & <- & Hc).
  destruct (filter_r_In _ _ _ _ Ef Hc) as [_ Hv]. simpl in *. auto.
Qed.

Lemma get_valid_builds_In (b : Board) (w : Worker) (l : list BuildTurn) (t : BuildTurn) :
  get_valid_builds b w = Ok l -> In t l ->
  is_valid_build b w (build_x t) (build_y t) = Ok true
  /\ worker_x t = w_x w /\ worker_y t = w_y w /\ bt_color t = w_color w.
Proof.
  unfold get_valid_builds. intros H Ht.
  destruct (filter_r _ (neighbor_coordinates w)) as [cs|e] eqn:Ef;
    simpl in H; [|discriminate].
  injection H as <-. apply in_map_iff in Ht as ([x y] & <- & Hc).
  destruct (filter_r_In _ _ _ _ Ef Hc) as [_ Hv]. simpl in *. auto.
Qed.

(** On a grid of the right shape both enumerations return. *)
Lemma get_valid_moves_total (b : Board) (w : Worker) :
  wf_blocks b -> exists l, get_valid_moves b w = Ok l.
Proof.
  intros Hwf. unfold get_valid_moves.
  destruct (filter_r_total (fun xy => is_valid_move b w (fst xy) (snd xy))
                           (neighbor_coordinates w)) as [cs ->].
  - intros a. now apply is_valid_move_total.
  - simpl. eauto.
Qed.

Lemma get_valid_builds_total (b : Board) (w : Worker) :
  wf_blocks b -> exists l, get_valid_builds b w = Ok l.
Proof.
  intros Hwf. unfold get_valid_builds.
  destruct (filter_r_total (fun xy => is_valid_build b w (fst xy) (snd xy))
                           (neighbor_coordinates w)) as [cs ->].
  - intros a. now apply is_valid_build_total.
  - simpl. eauto.
Qed.

(** C7. Every target that [get_valid_moves] or [get_valid_builds] lists for
    a worker of the board lies inside the grid, holds no worker, is one of
    the eight cells around the worker and is lower than [max_height]; a move
    target is moreover at most one level above the worker. *)
Theorem valid_targets_sound (b : Board) (w : Worker) :
  In w (workers b) ->
  (forall l m, get_valid_moves b w = Ok l -> In m l ->
     valid_target b w (end_x m) (end_y m)
     /\ exists h, _block_height b (end_x m) (end_y m) = Ok h
                  /\ h <= w_height w + 1)
  /\ (forall l t, get_valid_builds b w = Ok l -> In t l ->
        valid_target b w (build_x t) (build_y t)).
Proof.
  intros _. split.
  - intros l m Hl Hm. destruct (get_valid_moves_In b w l m Hl Hm) as [Hv _].
    now apply is_valid_move_true.
  - intros l t Hl Ht. destruct (get_valid_builds_In b w l t Hl Ht) as [Hv _].
    now apply is_valid_build_true.
Qed.

Lemma valid_targets_sound_witness :
  valid_target (board game_placed) (mkWorker 0 0 0 BLUE) 1 0
  /\ valid_target (board game_placed) (mkWorker 0 0 0 BLUE) 0 1.
Proof.
  destruct (valid_targets_sound (board game_placed) (mkWorker 0 0 0 BLUE))
    as [Hm Hb].
  - left. reflexivity.
  - split.
    + apply (Hm [mkMoveTurn BLUE 0 0 0 1; mkMoveTurn BLUE 0 0 1 0]
                (mkMoveTurn BLUE 0 0 1 0)).
      * vm_compute. reflexivity.
      * right. left. reflexivity.
    + apply (Hb [mkBuildTurn BLUE 0 0 0 1; mkBuildTurn BLUE 0 0 1 0]
                (mkBuildTurn BLUE 0 0 0 1)).
      * vm_compute. reflexivity.
      * left. reflexivity.
Defined.

(** ** Moving *)

Lemma find_index_Some {A} (f : A -> bool) (l : list A) (i : nat) :
  find_index f l = Some i ->
  exists a, l !! i = Some a /\ f a = true.
Proof.
  revert i. induction l as [|x l IH]; simpl; intros i H; [discriminate|].
  destruct (f x) eqn:Ex.
  - injection H as <-. eauto.
  - destruct (find_index f l) as [j|]; simpl in H; [|discriminate].
    injection H as <-. destruct (IH j eq_refl) as (a & Ha & Hf). eauto.
Qed.

(** A worker written over another one is the first found at its own
    position when nobody stood there. *)
Lemma find_insert_fresh {A} (f : A -> bool) (l : list A) (i : nat) (a : A) :
  existsb f l = false -> (i < length l)%nat -> f a = true ->
  find f (<[i := a]> l) = Some a.
Proof.
  revert i. induction l as [|x l IH]; simpl; intros i Hex Hi Ha; [lia|].
  apply orb_false_iff in Hex as [Hx Hl].
  destruct i as [|i]; simpl.
  - now rewrite Ha.
  - rewrite Hx. apply IH; auto. lia.
Qed.

(** What a successful [Board.move] has done. *)
Lemma move_Ok (b b' : Board) (c : Color) (sx sy ex ey : Z) :
  move b c sx sy ex ey = Ok b' ->
  exists idx w h,
    _get_worker_index b sx sy = Ok idx
    /\ workers b !! idx = Some w
    /\ w_x w = sx /\ w_y w = sy /\ w_color w = c
    /\ is_valid_move b w ex ey = Ok true
    /\ _block_height b ex ey = Ok h
    /\ b' = set_workers b (<[idx := mkWorker ex ey h c]> (workers b)).
Proof.
  unfold move, _get_worker_index. intros H.
  destruct (find_index (at_xy sx sy) (workers b)) as [idx|] eqn:Ei;
    simpl in H; [|discriminate].
  destruct (find_index_Some _ _ _ Ei) as (w & Hw & Hat).
  rewrite Hw in H. simpl in H. apply at_xy_true in Hat as [Hx Hy].
  destruct (Color_eqb (w_color w) c) eqn:Ec; simpl in H; [|discriminate].
  apply Color_eqb_eq in Ec.
  destruct (is_valid_move b w ex ey) as [[|]|e] eqn:Ev; simpl in H;
    try discriminate.
  destruct (_block_height b ex ey) as [h|e] eqn:Eh; simpl in H; [|discriminate].
  injection H as <-. exists idx, w, h.
  unfold Worker_move. rewrite Ec. repeat split; auto.
Qed.

Lemma np_index_nonneg (n : nat) (i : Z) (k : nat) :
  0 <= i -> np_index n i = Ok k -> k = Z.to_nat i /\ (k < n)%nat.
Proof.
  intros Hi. unfold np_index.
  destruct ((0 <=? i) && (i <? Z.of_nat n)) eqn:E1.
  - apply andb_true_iff in E1 as [_ H2]. apply Z.ltb_lt in H2.
    intros [= <-]. split; [reflexivity | lia].
  - destruct ((- Z.of_nat n <=? i) && (i <? 0)) eqn:E2; [|discriminate].
    apply andb_true_iff in E2 as [_ H2]. apply Z.ltb_lt in H2. lia.
Qed.

(** At coordinates that are not negative, a height that the code reads is
    the entry of the grid in row y and column x. *)
Lemma _block_height_cell (b : Board) (x y h : Z) :
  0 <= x -> 0 <= y -> _block_height b x y = Ok h ->
  cell (board_blocks b) x y = Some h.
Proof.
  intros Hx Hy. unfold _block_height, np_getitem, cell.
  destruct (np_index (length (board_blocks b)) y) as [k|e] eqn:Ek;
    simpl; [|discriminate].
  destruct (np_index_nonneg _ _ _ Hy Ek) as [-> _].
  destruct (board_blocks b !! Z.to_nat y) as [row|]; simpl; [|discriminate].
  destruct (np_index (length row) x) as [j|e] eqn:Ej; simpl; [|discriminate].
  destruct (np_index_nonneg _ _ _ Hx Ej) as [-> _].
  destruct (row !! Z.to_nat x); [|discriminate]. now intros [= ->].
Qed.

(** C8. A successful [Board.move] rewrites one worker of the list, the one
    that stood at the start and has the colour given: it now stands at the
    destination and records the height that the grid held there, in row
    [ey] and column [ex], before the move; every other worker and the whole
    grid of building heights are as before. *)
Theorem move_takes_destination_height
        (b b' : Board) (c : Color) (sx sy ex ey : Z) :
  move b c sx sy ex ey = Ok b' ->
  board_blocks b' = board_blocks b
  /\ exists idx w h,
       workers b !! idx = Some w
       /\ w_x w = sx /\ w_y w = sy /\ w_color w = c
       /\ cell (board_blocks b) ex ey = Some h
       /\ workers b' = <[idx := mkWorker ex ey h c]> (workers b)
       /\ workers b' !! idx = Some (mkWorker ex ey h c)
       /\ (forall j, j <> idx -> workers b' !! j = workers b !! j)
       /\ _get_worker_index b sx sy = Ok idx
       /\ _block_height b ex ey = Ok h
       /\ _get_worker_at b' ex ey = Ok (mkWorker ex ey h c).
Proof.
  intros H.
  destruct (move_Ok _ _ _ _ _ _ _ H)
    as (idx & w & h & Hidx & Hw & Hx & Hy & Hc & Hv & Hh & ->).
  split; [reflexivity|]. exists idx, w, h. simpl.
  assert (idx < length (workers b))%nat as Hlt by (eapply lookup_lt_Some; eauto).
  destruct (is_valid_move_true _ _ _ _ Hv) as [([Hex Hey] & Hfree & _) _].
  repeat split; auto.
  - apply _block_height_cell; [lia | lia | exact Hh].
  - now apply list_lookup_insert_eq.
  - intros j Hj. apply list_lookup_insert_ne. congruence.
  - unfold _get_worker_at. simpl.
    apply _worker_on_space_false in Hfree.
    rewrite (find_insert_fresh (at_xy ex ey) (workers b) idx (mkWorker ex ey h c));
      auto.
    apply at_xy_true. auto.
Qed.

Lemma move_takes_destination_height_witness :
  exists b',
    move board_with_a_step BLUE 0 0 1 1 = Ok b'
    /\ board_blocks b' = [[0; 0; 0]; [0; 1; 0]; [0; 0; 0]]
    /\ workers b' = [mkWorker 1 1 1 BLUE].
Proof.
  exists (set_workers board_with_a_step [mkWorker 1 1 1 BLUE]).
  assert (move board_with_a_step BLUE 0 0 1 1
          = Ok (set_workers board_with_a_step [mkWorker 1 1 1 BLUE])) as E
      by (vm_compute; reflexivity).
  split; [exact E|].
  destruct (move_takes_destination_height _ _ _ _ _ _ _ E)
    as (Hb & idx & w & h & _ & _ & _ & _ & Hcell & Hws & _ & _ & Hidx & _ & _).
  split; [exact Hb|].
  vm_compute in Hcell. injection Hcell as <-.
  vm_compute in Hidx. injection Hidx as <-.
  exact Hws.
Defined.

(** ** Recorded heights and the grid *)

Lemma np_zeros_shape (length_ width : Z) (blocks : list (list Z)) :
  np_zeros length_ width = Ok blocks ->
  length blocks = Z.to_nat length_
  /\ Forall (fun row => length row = Z.to_nat width) blocks.
Proof.
  unfold np_zeros. destruct ((length_ <? 0) || (width <? 0)); [discriminate|].
  intros [= <-]. split.
  - apply length_replicate.
  - apply Forall_replicate, length_replicate.
Qed.

Lemma Board_init_grounded (length_ width mh cap : Z) (b : Board) :
  Board_init length_ width mh cap = Ok b -> grounded b.
Proof.
  unfold Board_init. destruct (np_zeros length_ width) as [blocks|e] eqn:E;
    simpl; [|discriminate].
  intros [= <-]. split.
  - exact (np_zeros_shape _ _ _ E).
  - intros w [].
Qed.

Lemma reset_grounded (b b' : Board) : reset b = Ok b' -> grounded b'.
Proof.
  unfold reset. destruct (np_zeros (b_length b) (b_width b)) as [blocks|e] eqn:E;
    simpl; [|discriminate].
  intros [= <-]. split.
  - exact (np_zeros_shape _ _ _ E).
  - intros w [].
Qed.

Lemma place_worker_Ok (b b' : Board) (c : Color) (x y : Z) :
  place_worker b c x y = Ok b' ->
  b' = set_workers b (workers b ++ [mkWorker x y 0 c]).
Proof.
  unfold place_worker.
  destruct (negb (player_can_place_workers b c)); [discriminate|].
  destruct (negb (_worker_on_space b x y)); [|discriminate].
  now intros [= <-].
Qed.

Lemma place_worker_grounded (b b' : Board) (c : Color) (x y : Z) :
  grounded b -> place_worker b c x y = Ok b' ->
  in_grid b x y -> _block_height b x y = Ok 0 ->
  grounded b'.
Proof.
  intros [Hwf Hws] H Hin Hh. apply place_worker_Ok in H as ->.
  split; [exact Hwf|]. simpl. intros w Hw.
  apply in_app_or in Hw as [Hw | [<- | []]].
  - apply (Hws w Hw).
  - simpl. split; [exact Hin | exact Hh].
Qed.

Lemma In_insert {A} (l : list A) (i : nat) (a x : A) :
  In x (<[i := a]> l) -> x = a \/ In x l.
Proof.
  revert i. induction l as [|y l IH]; intros i; simpl; [tauto|].
  destruct i as [|i]; simpl.
  - intros [<- | H]; auto.
  - intros [<- | H]; auto. destruct (IH i H); auto.
Qed.

Lemma move_grounded (b b' : Board) (c : Color) (sx sy ex ey : Z) :
  grounded b -> move b c sx sy ex ey = Ok b' -> grounded b'.
Proof.
  intros [Hwf Hws] H.
  destruct (move_Ok _ _ _ _ _ _ _ H)
    as (idx & w & h & _ & _ & _ & _ & _ & Hv & Hh & ->).
  split; [exact Hwf|]. simpl. intros w' Hw'.
  apply In_insert in Hw' as [-> | Hw'].
  - simpl. destruct (is_valid_move_true _ _ _ _ Hv) as [(Hin & _) _].
    split; [exact Hin | exact Hh].
  - apply (Hws w' Hw').
Qed.

(** What a successful [Board.build] has done, on a grid of the right shape. *)
Lemma build_Ok (b b' : Board) (c : Color) (wx wy bx by_ : Z) :
  wf_blocks b -> build b c wx wy bx by_ = Ok b' ->
  exists row h,
    in_grid b bx by_ /\ unoccupied b bx by_
    /\ board_blocks b !! Z.to_nat by_ = Some row
    /\ row !! Z.to_nat bx = Some h
    /\ b' = set_board_blocks b
              (<[Z.to_nat by_ := <[Z.to_nat bx := int64_wrap (h + 1)]> row]>
                 (board_blocks b)).
Proof.
  intros Hwf H. unfold build in H.
  destruct (_get_worker_at b wx wy) as [w|e]; simpl in H; [|discriminate].
  destruct (negb (Color_eqb (w_color w) c)); [discriminate|].
  destruct (is_valid_build b w bx by_) as [[|]|e] eqn:Ev; simpl in H;
    try discriminate.
  destruct (is_valid_build_true _ _ _ _ Ev) as (Hin & Hfree & _).
  destruct (_block_height_inside b bx by_ Hwf Hin) as (row & h & Hrow & Hh & _).
  pose proof Hin as [Hx Hy]. pose proof Hwf as [Hlen Hrows].
  assert (length row = Z.to_nat (b_width b)) as Hw.
  { rewrite Forall_forall in Hrows. apply Hrows, list_elem_of_lookup. eauto. }
  unfold np_getitem in H.
  rewrite (np_index_inside (length (board_blocks b)) by_) in H by lia.
  simpl in H. rewrite Hrow in H. simpl in H.
  rewrite (np_index_inside (length row) bx) in H by lia.
  simpl in H. rewrite Hh in H. simpl in H.
  rewrite np_setitem_inside in H by lia. simpl in H.
  rewrite np_setitem_inside in H by lia. simpl in H.
  injection H as <-. exists row, h. auto.
Qed.

Lemma build_grounded (b b' : Board) (c : Color) (wx wy bx by_ : Z) :
  grounded b -> build b c wx wy bx by_ = Ok b' -> grounded b'.
Proof.
  intros [Hwf Hws] H.
  destruct (build_Ok _ _ _ _ _ _ _ Hwf H)
    as (row & h & Hin & Hfree & Hrow & Hh & ->).
  pose proof Hwf as [Hlen Hrows].
  assert (length row = Z.to_nat (b_width b)) as Hw.
  { rewrite Forall_forall in Hrows. apply Hrows, list_elem_of_lookup. eauto. }
  assert (wf_blocks
            (set_board_blocks b
               (<[Z.to_nat by_ := <[Z.to_nat bx := int64_wrap (h + 1)]> row]>
                  (board_blocks b)))) as Hwf'.
  { split; simpl.
    - now rewrite length_insert.
    - apply Forall_insert; [exact Hrows|]. now rewrite length_insert. }
  split; [exact Hwf'|]. simpl. intros w Hw'.
  destruct (Hws w Hw') as [Hwin Hwh]. split; [exact Hwin|].
  destruct (_block_height_inside _ _ _ Hwf' Hwin) as (row' & h' & Hrow' & Hh' & ->).
  destruct (_block_height_inside _ _ _ Hwf Hwin) as (row0 & h0 & Hrow0 & Hh0 & E0).
  rewrite E0 in Hwh. injection Hwh as <-. f_equal.
  simpl in Hrow'.
  destruct Hin as [Hbx Hby]. destruct Hwin as [Hwx Hwy].
  destruct (decide (Z.to_nat by_ = Z.to_nat (w_y w))) as [Ey | Ney].
  - rewrite Ey in Hrow'. rewrite list_lookup_insert_eq in Hrow' by lia.
    injection Hrow' as <-.
    assert (Z.to_nat bx <> Z.to_nat (w_x w)) as Nex.
    { intros Ex. apply (Hfree w Hw'). lia. }
    rewrite list_lookup_insert_ne in Hh' by exact Nex.
    rewrite Ey in Hrow. congruence.
  - rewrite list_lookup_insert_ne in Hrow' by exact Ney. congruence.
Qed.

Lemma run_ops_grounded (ops : list BoardOp) (b b' : Board) :
  grounded b -> places_on_ground b ops = true -> run_ops b ops = Ok b' ->
  grounded b'.
Proof.
  revert b. induction ops as [|op ops IH]; simpl; intros b Hg Hp Hrun.
  - now injection Hrun as <-.
  - destruct (apply_op b op) as [b1|e] eqn:Eop; simpl in Hrun; [|discriminate].
    apply andb_true_iff in Hp as [Hop Hrest].
    apply (IH b1); auto.
    destruct op as [c x y | c sx sy ex ey | c wx wy bx by_ | ]; simpl in Eop.
    + apply andb_true_iff in Hop as [Hin Hh].
      apply _is_on_board_in_grid in Hin.
      destruct (_block_height b x y) as [h|e] eqn:Eh; [|discriminate].
      apply Z.eqb_eq in Hh as ->.
      eapply place_worker_grounded; eauto.
    + eapply move_grounded; eauto.
    + eapply build_grounded; eauto.
    + eapply reset_grounded; eauto.
Qed.

(** C9, as the code has it.  From a fresh board, along any sequence of
    successful [place_worker], [move], [build] and [reset] in which every
    placement lands on a cell of the grid that carries no building at that
    moment, every worker records the height of the cell it stands on. *)
Theorem heights_in_sync_when_placed_on_ground
        (length_ width mh cap : Z) (ops : list BoardOp) (b0 b' : Board) :
  Board_init length_ width mh cap = Ok b0 ->
  run_ops b0 ops = Ok b' ->
  places_on_ground b0 ops = true ->
  heights_in_sync b'.
Proof.
  intros Hinit Hrun Hp.
  destruct (run_ops_grounded ops b0 b' (Board_init_grounded _ _ _ _ _ Hinit) Hp Hrun)
    as [_ Hws].
  intros w Hw. now destruct (Hws w Hw).
Qed.

Lemma heights_in_sync_when_placed_on_ground_witness :
  heights_in_sync
    {| b_length := 3; b_width := 3; max_height := 2;
       max_workers_per_player := 1;
       workers := [mkWorker 1 1 1 BLUE];
       board_blocks := [[0; 0; 0]; [0; 1; 0]; [0; 0; 1]] |}.
Proof.
  apply (heights_in_sync_when_placed_on_ground 3 3 2 1
           [OpPlace BLUE 0 0; OpBuild BLUE 0 0 1 1; OpMove BLUE 0 0 1 1;
            OpBuild BLUE 1 1 2 2]
           board_3x3).
  - vm_compute. reflexivity.
  - vm_compute. reflexivity.
  - vm_compute. reflexivity.
Defined.

(** C9, as the spec words it, fails: [place_worker] records height 0 whatever
    the cell carries, so a worker placed on a cell that was built on is out
    of step with the grid. *)
Lemma heights_in_sync_counterexample :
  ~ (forall (length_ width mh cap : Z) (ops : list BoardOp) (b0 b' : Board),
        Board_init length_ width mh cap = Ok b0 ->
        run_ops b0 ops = Ok b' ->
        heights_in_sync b').
Proof.
  intros H.
  specialize (H 5 5 4 2
                [OpPlace BLUE 0 0; OpBuild BLUE 0 0 1 1; OpPlace BLUE 1 1]
                board_5x5
                (mkBoard 5 5 4 2 [mkWorker 0 0 0 BLUE; mkWorker 1 1 0 BLUE]
                   [[0; 0; 0; 0; 0]; [0; 1; 0; 0; 0]; [0; 0; 0; 0; 0];
                    [0; 0; 0; 0; 0]; [0; 0; 0; 0; 0]])
                eq_refl eq_refl
                (mkWorker 1 1 0 BLUE) (or_intror (or_introl eq_refl))).
  vm_compute in H. discriminate.
Qed.

(** Outside the grid a placed worker stands on no cell at all. *)
Lemma heights_in_sync_fails_off_grid :
  exists b',
    run_ops board_5x5 [OpPlace BLUE 5 5] = Ok b'
    /\ In (mkWorker 5 5 0 BLUE) (workers b')
    /\ _block_height b' 5 5 = Raise IndexError.
Proof.
  exists (set_workers board_5x5 [mkWorker 5 5 0 BLUE]).
  repeat split; [left; reflexivity].
Qed.

(** ** Moves through the manager *)

(** Whenever the manager accepts a MOVE and the board carries it out, the
    snapshot is appended and the lookup of the loss test raises: the cached
    board and both rotations stay as they were. *)
Lemma update_game_state_move_raises
      (gm : GameManager) (ap : Color) (sx sy ex ey : Z) (rest : list Z)
      (expected_player : option Color) (b1 : Board) :
  active_player gm = Ok ap ->
  expected_player = None \/ expected_player = Some ap ->
  current_turn_action gm = Ok MOVE ->
  move (board gm) ap sx sy ex ey = Ok b1 ->
  update_game_state MOVE (sx :: sy :: ex :: ey :: rest) expected_player gm
  = (log_append (mkGameState ap b1 MOVE (TurnMove (mkMoveTurn ap sx sy ex ey))) gm,
     Raise AttributeError).
Proof.
  intros Hap Hexp Hreq Hmove. unfold update_game_state. unfold_M.
  rewrite Hap.
  replace (match expected_player with
           | Some p => negb (Color_eqb p ap)
           | None => false
           end) with false
    by (destruct Hexp as [-> | ->]; [|rewrite Color_eqb_refl]; reflexivity).
  cbv beta. rewrite Hreq. simpl. rewrite Hmove. reflexivity.
Qed.

(** C1. The sequence test on the 3 x 3 board: both placements are accepted
    and leave BLUE to MOVE; the move BLUE (0,0) -> (1,0) raises
    AttributeError, after which the manager still asks BLUE for a MOVE and
    turns down the build with the worker at (1,0). *)
Theorem sequence_test_stops_at_the_move :
  snd (update_game_state PLACE_WORKER [0; 0] None game_start) = Ok tt
  /\ update_game_state PLACE_WORKER [1; 1] None
       (fst (update_game_state PLACE_WORKER [0; 0] None game_start))
     = (game_placed, Ok tt)
  /\ current_turn_action game_placed = Ok MOVE
  /\ active_player game_placed = Ok BLUE
  /\ update_game_state MOVE [0; 0; 1; 0] None game_placed
     = (game_moved, Raise AttributeError)
  /\ current_turn_action game_moved = Ok MOVE
  /\ active_player game_moved = Ok BLUE
  /\ update_game_state BUILD [1; 0; 2; 0] None game_moved
     = (game_moved, Raise IllegalMoveError).
Proof. repeat split; vm_compute; reflexivity. Qed.

(** The test that the board does define, [player_in_lose_state_after_move],
    finds a build for the moved worker. *)
Example moved_worker_can_build :
  player_in_lose_state_after_move
    (set_workers board_3x3 [mkWorker 1 0 0 BLUE; mkWorker 1 1 0 WHITE]) 1 0
  = Ok false.
Proof. vm_compute. reflexivity. Qed.

(** Entered with the move completed, the BUILD branch accepts the build with
    the moved worker and hands the turn to WHITE, who is to MOVE. *)
Example build_after_a_completed_move :
  snd (update_game_state BUILD [1; 0; 2; 0] None game_build_due) = Ok tt
  /\ active_player (fst (update_game_state BUILD [1; 0; 2; 0] None game_build_due))
     = Ok WHITE
  /\ current_turn_action
       (fst (update_game_state BUILD [1; 0; 2; 0] None game_build_due))
     = Ok MOVE.
Proof. repeat split; vm_compute; reflexivity. Qed.

(** C2. A MOVE that the board accepts is applied in part: the call raises
    AttributeError with the snapshot appended to the log, while the cached
    board is still the one from before the move and no rotation has turned;
    the manager is neither committed nor as it was. *)
Theorem move_is_applied_in_part :
  let snapshot :=
    mkGameState BLUE
      (set_workers board_3x3 [mkWorker 1 0 0 BLUE; mkWorker 1 1 0 WHITE])
      MOVE (TurnMove (mkMoveTurn BLUE 0 0 1 0)) in
  update_game_state MOVE [0; 0; 1; 0] None game_placed
  = (game_moved, Raise AttributeError)
  /\ game_state_log game_moved = game_state_log game_placed ++ [snapshot]
  /\ board game_moved = board game_placed
  /\ board game_moved <> gs_board snapshot
  /\ player_order game_moved = player_order game_placed
  /\ turn_order game_moved = turn_order game_placed
  /\ ~ all_or_nothing game_placed
        (update_game_state MOVE [0; 0; 1; 0] None game_placed).
Proof.
  cbv zeta.
  assert (update_game_state MOVE [0; 0; 1; 0] None game_placed
          = (log_append
               (mkGameState BLUE
                  (set_workers board_3x3 [mkWorker 1 0 0 BLUE; mkWorker 1 1 0 WHITE])
                  MOVE (TurnMove (mkMoveTurn BLUE 0 0 1 0))) game_placed,
             Raise AttributeError)) as E.
  { apply update_game_state_move_raises;
      try (vm_compute; reflexivity). left; reflexivity. }
  unfold game_moved. rewrite E. simpl fst.
  repeat split.
  - vm_compute. discriminate.
  - intros [(gs & Hlog & Hboard) | [_ Hsame]].
    + unfold log_append in Hlog. cbn [game_state_log] in Hlog.
      apply app_inj_tail in Hlog as [_ <-].
      vm_compute in Hboard. discriminate.
    + apply (f_equal (fun g => length (game_state_log g))) in Hsame.
      vm_compute in Hsame. discriminate.
Qed.

(** ** End of turn *)

(** The test for a player who cannot move never takes anybody out of the
    rotation. *)
Lemma _check_loss_state_player_cant_move_keeps (gm : GameManager) :
  fst (_check_loss_state_player_cant_move gm) = gm.
Proof.
  unfold _check_loss_state_player_cant_move. unfold_M.
  destruct (previous_game_state gm); [|reflexivity].
  destruct (negb (length (player_order gm) =? 1)%nat); [|reflexivity].
  destruct (current_turn_action gm) as [t|e]; [|reflexivity].
  destruct (TurnActions_eqb t MOVE); reflexivity.
Qed.

(** It raises as soon as its three conditions hold. *)
Lemma _check_loss_state_player_cant_move_raises
      (gm : GameManager) (prev : GameState) :
  last (game_state_log gm) = Some prev ->
  length (player_order gm) <> 1%nat ->
  current_turn_action gm = Ok MOVE ->
  _check_loss_state_player_cant_move gm = (gm, Raise AttributeError).
Proof.
  intros Hprev Hlen Hreq.
  unfold _check_loss_state_player_cant_move, previous_game_state. unfold_M.
  rewrite Hprev. apply Nat.eqb_neq in Hlen. rewrite Hlen. simpl.
  now rewrite Hreq.
Qed.

(** With one player left neither loss test does anything. *)
Lemma _check_loss_state_player_cant_build_single (gm : GameManager) (c : Color) :
  player_order gm = [c] ->
  _check_loss_state_player_cant_build gm = (gm, Ok tt).
Proof.
  intros Hpo. unfold _check_loss_state_player_cant_build. unfold_M.
  destruct (previous_game_state gm); [|reflexivity].
  now rewrite Hpo.
Qed.

Lemma _check_loss_state_player_cant_move_single (gm : GameManager) (c : Color) :
  player_order gm = [c] ->
  _check_loss_state_player_cant_move gm = (gm, Ok tt).
Proof.
  intros Hpo. unfold _check_loss_state_player_cant_move. unfold_M.
  destruct (previous_game_state gm); [|reflexivity].
  now rewrite Hpo.
Qed.

(** The last player of the rotation is reported as the winner at once. *)
Lemma last_player_wins (gm : GameManager) (c : Color) :
  player_order gm = [c] ->
  _in_end_game_state gm = (gm, Ok true) /\ active_player gm = Ok c.
Proof.
  intros Hpo. split; [|unfold active_player; now rewrite Hpo].
  unfold _in_end_game_state, bind.
  rewrite (_check_loss_state_player_cant_build_single gm c Hpo).
  rewrite (_check_loss_state_player_cant_move_single gm c Hpo).
  unfold _check_win_state_one_player_left, active_player. unfold_M.
  rewrite Hpo. simpl. rewrite Hpo. reflexivity.
Qed.

(** C5. On the board of two cells, after both placements, BLUE is to MOVE
    and has no move, two players are in the rotation; the end-of-turn
    bookkeeping raises AttributeError and BLUE stays in the rotation. *)
Theorem blocked_player_is_not_removed :
  current_turn_action game_blocked = Ok MOVE
  /\ player_order game_blocked = [BLUE; WHITE]
  /\ player_in_lose_state_before_move (board game_blocked) BLUE = Ok true
  /\ _check_loss_state_player_cant_move game_blocked
     = (game_blocked, Raise AttributeError)
  /\ _in_end_game_state game_blocked = (game_blocked, Raise AttributeError).
Proof. repeat split; vm_compute; reflexivity. Qed.

(** ** Placements and builds through the manager

    The two branches of [update_game_state] that do not look up the loss
    test leave the manager either with the snapshot appended and its board
    cached, or untouched and raising. *)

Lemma _check_win_state_board_win_state_keeps (gm : GameManager) :
  fst (_check_win_state_board_win_state gm) = gm.
Proof.
  unfold _check_win_state_board_win_state. unfold_M.
  destruct (previous_game_state gm); [|reflexivity].
  destruct (active_player gm); reflexivity.
Qed.

Lemma _change_active_player_keeps (gm : GameManager) :
  same_log_and_board gm (fst (_change_active_player gm)).
Proof.
  unfold _change_active_player, same_log_and_board. unfold_M.
  destruct (player_order gm); simpl; auto.
Qed.

Lemma _change_current_turn_action_keeps (gm : GameManager) :
  same_log_and_board gm (fst (_change_current_turn_action gm)).
Proof.
  unfold _change_current_turn_action, same_log_and_board. unfold_M.
  destruct (forallb _ (player_order gm)); simpl; auto.
  destruct (previous_game_state gm) as [prev|]; simpl; auto.
  destruct (negb (TurnActions_eqb (gs_turn_action prev) PLACE_WORKER));
    simpl; auto.
  destruct (turn_order gm); simpl; auto.
Qed.

Lemma same_log_and_board_refl (gm : GameManager) : same_log_and_board gm gm.
Proof. split; reflexivity. Qed.

Lemma same_log_and_board_trans (g1 g2 g3 : GameManager) :
  same_log_and_board g1 g2 -> same_log_and_board g2 g3 ->
  same_log_and_board g1 g3.
Proof. unfold same_log_and_board. intros [-> ->] [-> ->]. auto. Qed.

Lemma bind_keeps {A B} (m : M A) (k : A -> M B) (gm : GameManager) :
  same_log_and_board gm (fst (m gm)) ->
  (forall a g, same_log_and_board g (fst (k a g))) ->
  same_log_and_board gm (fst (bind m k gm)).
Proof.
  intros Hm Hk. unfold bind. destruct (m gm) as [g [a|e]]; simpl in *.
  - eapply same_log_and_board_trans; [exact Hm | apply Hk].
  - exact Hm.
Qed.

Create HintDb keeps.
#[local] Hint Resolve same_log_and_board_refl _change_active_player_keeps
  _change_current_turn_action_keeps : keeps.

Lemma finish_turn_keeps (in_loss : bool) (gm : GameManager) :
  same_log_and_board gm (fst (finish_turn in_loss gm)).
Proof.
  unfold finish_turn. apply bind_keeps.
  - rewrite _check_win_state_board_win_state_keeps. auto with keeps.
  - intros in_win g. destruct (negb in_win); [|apply same_log_and_board_refl].
    apply bind_keeps; [apply same_log_and_board_refl|]. intros gm1 g1.
    apply bind_keeps.
    + destruct (previous_game_state gm1) as [prev|];
        [|apply same_log_and_board_refl].
      destruct (negb (TurnActions_eqb (gs_turn_action prev) MOVE) || in_loss);
        auto with keeps.
    + intros [] g2. destruct (negb in_loss); auto with keeps.
Qed.

Lemma finish_turn_commits (in_loss : bool) (gm : GameManager) (gs : GameState) :
  committed gm (fst (finish_turn in_loss (set_board (gs_board gs) (log_append gs gm)))).
Proof.
  destruct (finish_turn_keeps in_loss (set_board (gs_board gs) (log_append gs gm)))
    as [Hlog Hboard].
  exists gs. rewrite Hlog, Hboard. split; reflexivity.
Qed.

Lemma _check_moved_worker_before_build_keeps (gm : GameManager) (wx wy : Z) :
  fst (_check_moved_worker_before_build wx wy gm) = gm.
Proof.
  unfold _check_moved_worker_before_build. unfold_M.
  destruct (previous_game_state gm) as [prev|]; [|reflexivity].
  destruct (TurnActions_eqb (gs_turn_action prev) MOVE); [|reflexivity].
  destruct (gs_turn prev) as [t | t | t]; try reflexivity.
  destruct (negb (pair_eqb (end_x t, end_y t) (wx, wy))); reflexivity.
Qed.

Lemma update_game_state_place_build_atomic
      (gm : GameManager) (turn_action : TurnActions) (turn_coordinates : list Z)
      (expected_player : option Color) :
  turn_action <> MOVE ->
  all_or_nothing gm
    (update_game_state turn_action turn_coordinates expected_player gm).
Proof.
  assert (forall e, all_or_nothing gm (gm, Raise e)) as Hno
      by (intros e; right; simpl; eauto).
  intros Hta. unfold update_game_state.
  unfold bind at 1. unfold lift at 1.
  destruct (active_player gm) as [ap|e]; [|apply Hno].
  destruct (match expected_player with
            | Some p => negb (Color_eqb p ap)
            | None => false
            end); [apply Hno|].
  unfold bind at 1. unfold lift at 1.
  destruct (current_turn_action gm) as [required|e]; [|apply Hno].
  destruct (negb (TurnActions_eqb turn_action required)); [apply Hno|].
  unfold bind at 1. unfold get at 1.
  destruct turn_action; [| contradiction |].
  - (* PLACE_WORKER *)
    unfold bind, try_, modify, ret.
    destruct (coord turn_coordinates 0) as [x|e]; [|apply Hno].
    destruct (coord turn_coordinates 1) as [y|e]; [|apply Hno].
    destruct (place_worker (board gm) ap x y) as [board1|e]; [|apply Hno].
    left. simpl.
    apply (finish_turn_commits false gm
             (mkGameState ap board1 PLACE_WORKER
                (TurnPlace (mkPlaceWorkerTurn ap x y)))).
  - (* BUILD *)
    unfold bind, try_, modify, ret.
    destruct (coord turn_coordinates 0) as [wx|e]; [|apply Hno].
    destruct (coord turn_coordinates 1) as [wy|e]; [|apply Hno].
    pose proof (_check_moved_worker_before_build_keeps gm wx wy) as Hk.
    destruct (_check_moved_worker_before_build wx wy gm) as [g [[]|e]];
      simpl in Hk; subst g; [|apply Hno].
    destruct (coord turn_coordinates 2) as [bx|e]; [|apply Hno].
    destruct (coord turn_coordinates 3) as [by_|e]; [|apply Hno].
    destruct (build (board gm) ap wx wy bx by_) as [board1|e]; [|apply Hno].
    left. simpl.
    apply (finish_turn_commits false gm
             (mkGameState ap board1 BUILD
                (TurnBuild (mkBuildTurn ap wx wy bx by_)))).
Qed.

(** * Further properties of the board *)

(** ** What the operations leave alone *)

Lemma build_valid (b b' : Board) (c : Color) (wx wy bx by_ : Z) :
  build b c wx wy bx by_ = Ok b' ->
  exists w blocks',
    _get_worker_at b wx wy = Ok w /\ w_color w = c
    /\ is_valid_build b w bx by_ = Ok true
    /\ b' = set_board_blocks b blocks'.
Proof.
  unfold build. intros H.
  destruct (_get_worker_at b wx wy) as [w|e] eqn:Ew; simpl in H; [|discriminate].
  destruct (Color_eqb (w_color w) c) eqn:Ec; simpl in H; [|discriminate].
  apply Color_eqb_eq in Ec.
  destruct (is_valid_build b w bx by_) as [[|]|e] eqn:Ev; simpl in H;
    try discriminate.
  destruct (np_getitem (board_blocks b) by_) as [row|e]; simpl in H; [|discriminate].
  destruct (np_getitem row bx) as [h|e]; simpl in H; [|discriminate].
  destruct (np_setitem row bx (int64_wrap (h + 1))) as [row'|e]; simpl in H;
    [|discriminate].
  destruct (np_setitem (board_blocks b) by_ row') as [blocks'|e]; simpl in H;
    [|discriminate].
  injection H as <-. exists w, blocks'. repeat split; auto.
Qed.

Lemma apply_op_same_parameters (b b' : Board) (op : BoardOp) :
  apply_op b op = Ok b' -> same_parameters b b'.
Proof.
  destruct op as [c x y | c sx sy ex ey | c wx wy bx by_ | ]; simpl; intros H.
  - apply place_worker_Ok in H as ->. repeat split.
  - destruct (move_Ok _ _ _ _ _ _ _ H) as (idx & w & h & _ & _ & _ & _ & _ & _ & _ & ->).
    repeat split.
  - destruct (build_valid _ _ _ _ _ _ _ H) as (w & blocks' & _ & _ & _ & ->).
    repeat split.
  - unfold reset in H.
    destruct (np_zeros (b_length b) (b_width b)); simpl in H; [|discriminate].
    injection H as <-. repeat split.
Qed.

Lemma run_ops_same_parameters (ops : list BoardOp) (b b' : Board) :
  run_ops b ops = Ok b' -> same_parameters b b'.
Proof.
  revert b. induction ops as [|op ops IH]; simpl; intros b H.
  - injection H as <-. repeat split.
  - destruct (apply_op b op) as [b1|e] eqn:E; simpl in H; [|discriminate].
    destruct (apply_op_same_parameters _ _ _ E) as (H1 & H2 & H3 & H4).
    destruct (IH _ H) as (G1 & G2 & G3 & G4).
    unfold same_parameters. repeat split; congruence.
Qed.

Lemma Board_init_fields (length_ width mh cap : Z) (b : Board) :
  Board_init length_ width mh cap = Ok b ->
  b_length b = length_ /\ b_width b = width /\ max_height b = mh
  /\ max_workers_per_player b = cap /\ workers b = [].
Proof.
  unfold Board_init. destruct (np_zeros length_ width); simpl; [|discriminate].
  intros [= <-]. repeat split.
Qed.

(** ** Placing twice on one cell *)

Lemma existsb_insert_other {A} (f : A -> bool) (l : list A) (i : nat) (a a' : A) :
  l !! i = Some a -> f a = false ->
  existsb f l = true -> existsb f (<[i := a']> l) = true.
Proof.
  revert i. induction l as [|x l IH]; intros i Hi Ha Hex; [discriminate|].
  destruct i as [|i].
  - injection Hi as ->. change (<[0%nat := a']> (a :: l)) with (a' :: l).
    simpl in *. rewrite Ha in Hex. simpl in Hex. rewrite Hex. apply orb_true_r.
  - change (<[S i := a']> (x :: l)) with (x :: <[i := a']> l). simpl in *.
    destruct (f x); [reflexivity|]. simpl in *. now apply (IH i).
Qed.

(** A worker stays on (x, y) under every operation that neither resets the
    board nor moves a worker away from (x, y). *)
Lemma apply_op_keeps_the_cell_taken (b b' : Board) (op : BoardOp) (x y : Z) :
  leaves_cell_alone x y op = true ->
  apply_op b op = Ok b' ->
  _worker_on_space b x y = true -> _worker_on_space b' x y = true.
Proof.
  intros Hop H Hon.
  destruct op as [c x0 y0 | c sx sy ex ey | c wx wy bx by_ | ];
    simpl in H, Hop; [| | |discriminate].
  - apply place_worker_Ok in H as ->. unfold _worker_on_space in *. simpl.
    rewrite existsb_app, Hon. reflexivity.
  - destruct (move_Ok _ _ _ _ _ _ _ H)
      as (idx & w & h & _ & Hw & Hx & Hy & _ & _ & _ & ->).
    unfold _worker_on_space in *. simpl.
    apply (existsb_insert_other _ _ idx w); [exact Hw | | exact Hon].
    unfold at_xy. rewrite Hx, Hy. now apply negb_true_iff in Hop.
  - destruct (build_valid _ _ _ _ _ _ _ H) as (w & blocks' & _ & _ & _ & ->).
    exact Hon.
Qed.

(** X1. Once [place_worker] has put a worker on (x, y), [place_worker] on
    (x, y) raises IllegalMoveError, whatever the colour, after any sequence
    of successful operations in which no move starts from (x, y) and the
    board is not reset; the empty sequence is the placement repeated at
    once. *)
Theorem place_worker_twice_fails
        (b b1 b2 : Board) (c c' : Color) (x y : Z) (ops : list BoardOp) :
  place_worker b c x y = Ok b1 ->
  run_ops b1 ops = Ok b2 ->
  forallb (leaves_cell_alone x y) ops = true ->
  place_worker b2 c' x y = Raise IllegalMoveError.
Proof.
  intros Hplace Hrun Hops.
  assert (_worker_on_space b1 x y = true) as Hon.
  { apply place_worker_Ok in Hplace as ->. unfold _worker_on_space. simpl.
    rewrite existsb_app. simpl. unfold at_xy at 2. simpl.
    rewrite !Z.eqb_refl. simpl. apply orb_true_r. }
  clear Hplace. revert b1 Hrun Hon.
  induction ops as [|op ops IH]; simpl in *; intros b1 Hrun Hon.
  - injection Hrun as <-. unfold place_worker.
    destruct (negb (player_can_place_workers b1 c')); [reflexivity|].
    now rewrite Hon.
  - apply andb_true_iff in Hops as [Hop Hops].
    destruct (apply_op b1 op) as [b3|e] eqn:E; simpl in Hrun; [|discriminate].
    apply (IH Hops b3 Hrun).
    eapply apply_op_keeps_the_cell_taken; eauto.
Qed.

Lemma place_worker_twice_fails_witness :
  place_worker
    (mkBoard 5 5 4 2 [mkWorker 2 3 0 BLUE; mkWorker 1 0 0 WHITE]
       (<[3%nat := [0; 0; 0; 1; 0]]> (replicate 5 (replicate 5 0))))
    WHITE 2 3
  = Raise IllegalMoveError.
Proof.
  apply (place_worker_twice_fails board_5x5
           (set_workers board_5x5 [mkWorker 2 3 0 BLUE]) _ BLUE WHITE 2 3
           [OpPlace WHITE 0 0; OpMove WHITE 0 0 1 0; OpBuild BLUE 2 3 3 3]);
    vm_compute; reflexivity.
Defined.

(** The condition on the moves cannot be dropped: the cell is free again
    once its worker has moved away. *)
Example place_worker_after_the_worker_left :
  run_ops board_5x5 [OpPlace BLUE 0 0; OpMove BLUE 0 0 1 0; OpPlace WHITE 0 0]
  = Ok (set_workers board_5x5 [mkWorker 1 0 0 BLUE; mkWorker 0 0 0 WHITE]).
Proof. vm_compute. reflexivity. Qed.

(** ** The cap on the workers of a player *)

Lemma filter_length_insert {A} (f : A -> bool) (l : list A) (i : nat) (a a' : A) :
  l !! i = Some a -> f a' = f a ->
  length (List.filter f (<[i := a']> l)) = length (List.filter f l).
Proof.
  revert i. induction l as [|x l IH]; intros i Hi Hf; [discriminate|].
  destruct i as [|i].
  - injection Hi as ->. cbn [list_insert insert List.filter]. simpl.
    rewrite Hf. destruct (f a); reflexivity.
  - change (<[S i := a']> (x :: l)) with (x :: <[i := a']> l).
    simpl. simpl in Hi.
    destruct (f x); simpl; rewrite (IH i Hi Hf); reflexivity.
Qed.

Lemma apply_op_num_workers (b b' : Board) (op : BoardOp) (c : Color) :
  apply_op b op = Ok b' ->
  _num_workers b c <= Z.max 0 (max_workers_per_player b) ->
  _num_workers b' c <= Z.max 0 (max_workers_per_player b).
Proof.
  destruct op as [c0 x y | c0 sx sy ex ey | c0 wx wy bx by_ | ]; simpl; intros H Hle.
  - pose proof H as H'. apply place_worker_Ok in H' as ->.
    unfold place_worker, player_can_place_workers in H.
    destruct (_num_workers b c0 <? max_workers_per_player b) eqn:Ecap;
      simpl in H; [|discriminate].
    apply Z.ltb_lt in Ecap.
    unfold _num_workers in *. simpl. rewrite List.filter_app, length_app. simpl.
    destruct (Color_eqb c0 c) eqn:Ec; simpl.
    + apply Color_eqb_eq in Ec as ->. lia.
    + lia.
  - destruct (move_Ok _ _ _ _ _ _ _ H)
      as (idx & w & h & _ & Hw & _ & _ & Hc & _ & _ & ->).
    unfold _num_workers in *. simpl.
    rewrite (filter_length_insert _ _ idx w); auto. simpl. now rewrite Hc.
  - destruct (build_valid _ _ _ _ _ _ _ H) as (w & blocks' & _ & _ & _ & ->).
    exact Hle.
  - unfold reset in H.
    destruct (np_zeros (b_length b) (b_width b)); simpl in H; [|discriminate].
    injection H as <-. unfold _num_workers. simpl. lia.
Qed.

(** X2. From a fresh board, along any sequence of successful operations, no
    player has more workers on the board than the cap the board was built
    with (none at all when the cap is not positive). *)
Theorem worker_cap_is_kept
        (length_ width mh cap : Z) (ops : list BoardOp) (b0 b' : Board) (c : Color) :
  Board_init length_ width mh cap = Ok b0 ->
  run_ops b0 ops = Ok b' ->
  _num_workers b' c <= Z.max 0 cap
  /\ Z.of_nat (length (get_workers_with_color b' c)) <= Z.max 0 cap.
Proof.
  intros Hinit Hrun.
  destruct (Board_init_fields _ _ _ _ _ Hinit) as (_ & _ & _ & Hcap & Hws).
  assert (_num_workers b' c <= Z.max 0 cap) as Hnum.
  { assert (_num_workers b0 c <= Z.max 0 (max_workers_per_player b0)) as H0.
    { unfold _num_workers. rewrite Hws. simpl. lia. }
    rewrite <- Hcap. clear Hinit Hcap Hws. revert b0 Hrun H0.
    induction ops as [|op ops IH]; simpl; intros b0 Hrun H0.
    - now injection Hrun as <-.
    - destruct (apply_op b0 op) as [b1|e] eqn:E; simpl in Hrun; [|discriminate].
      destruct (apply_op_same_parameters _ _ _ E) as (_ & _ & _ & Hp).
      rewrite <- Hp. apply IH; [exact Hrun|]. rewrite Hp.
      eapply apply_op_num_workers; eauto. }
  split; [exact Hnum|exact Hnum].
Qed.

Lemma worker_cap_is_kept_witness :
  _num_workers
    (set_workers board_5x5 [mkWorker 0 0 0 BLUE; mkWorker 1 1 0 BLUE]) BLUE <= 2.
Proof.
  apply (worker_cap_is_kept 5 5 4 2 [OpPlace BLUE 0 0; OpPlace BLUE 1 1]
           board_5x5 _ BLUE); vm_compute; reflexivity.
Defined.

(** ** One worker per cell *)

Lemma unoccupied_not_In (b : Board) (x y : Z) :
  unoccupied b x y -> ~ In (x, y) (map position (workers b)).
Proof.
  intros Hfree Hin. apply in_map_iff in Hin as (w & Hpos & Hw).
  unfold position in Hpos. injection Hpos as Hx Hy. exact (Hfree w Hw (conj Hx Hy)).
Qed.

Lemma NoDup_map_insert {A B} (f : A -> B) (l : list A) (i : nat) (a : A) :
  List.NoDup (map f l) -> ~ In (f a) (map f l) ->
  List.NoDup (map f (<[i := a]> l)).
Proof.
  revert i. induction l as [|x l IH]; intros i Hnd Hnot; [exact Hnd|].
  inversion Hnd as [|? ? Hx Hl]; subst.
  destruct i as [|i].
  - change (<[0%nat := a]> (x :: l)) with (a :: l). simpl.
    constructor; [|exact Hl]. intros Hin. apply Hnot. right. exact Hin.
  - change (<[S i := a]> (x :: l)) with (x :: <[i := a]> l). simpl.
    constructor.
    + intros Hin. apply in_map_iff in Hin as (z & Hz & Hin).
      apply In_insert in Hin as [-> | Hin].
      * apply Hnot. left. now symmetry.
      * apply Hx. rewrite <- Hz. now apply in_map.
    + apply IH; [exact Hl|]. intros Hin. apply Hnot. right. exact Hin.
Qed.

Lemma apply_op_NoDup (b b' : Board) (op : BoardOp) :
  apply_op b op = Ok b' ->
  List.NoDup (map position (workers b)) ->
  List.NoDup (map position (workers b')).
Proof.
  destruct op as [c x y | c sx sy ex ey | c wx wy bx by_ | ]; simpl; intros H Hnd.
  - pose proof H as H'. apply place_worker_Ok in H' as ->.
    unfold place_worker in H.
    destruct (negb (player_can_place_workers b c)); [discriminate|].
    destruct (_worker_on_space b x y) eqn:Efree; simpl in H; [discriminate|].
    apply _worker_on_space_false, unoccupied_not_In in Efree.
    simpl. rewrite map_app. simpl.
    apply NoDup_ListNoDup, NoDup_app. repeat split.
    + now apply NoDup_ListNoDup.
    + intros p Hp Hp'. apply list_elem_of_In in Hp.
      apply list_elem_of_In in Hp' as [<- | []]. contradiction.
    + apply NoDup_ListNoDup. constructor; [intros []|constructor].
  - destruct (move_Ok _ _ _ _ _ _ _ H)
      as (idx & w & h & _ & _ & _ & _ & _ & Hv & _ & ->).
    simpl. apply NoDup_map_insert; [exact Hnd|].
    destruct (is_valid_move_true _ _ _ _ Hv) as [(_ & Hfree & _) _].
    now apply unoccupied_not_In in Hfree.
  - destruct (build_valid _ _ _ _ _ _ _ H) as (w & blocks' & _ & _ & _ & ->).
    exact Hnd.
  - unfold reset in H.
    destruct (np_zeros (b_length b) (b_width b)); simpl in H; [|discriminate].
    injection H as <-. simpl. constructor.
Qed.

(** X3. From a fresh board, along any sequence of successful operations, no
    two workers stand on the same coordinates. *)
Theorem one_worker_per_cell
        (length_ width mh cap : Z) (ops : list BoardOp) (b0 b' : Board) :
  Board_init length_ width mh cap = Ok b0 ->
  run_ops b0 ops = Ok b' ->
  List.NoDup (map position (workers b')).
Proof.
  intros Hinit Hrun.
  destruct (Board_init_fields _ _ _ _ _ Hinit) as (_ & _ & _ & _ & Hws).
  assert (List.NoDup (map position (workers b0))) as H0
      by (rewrite Hws; constructor).
  clear Hinit Hws. revert b0 Hrun H0.
  induction ops as [|op ops IH]; simpl; intros b0 Hrun H0.
  - now injection Hrun as <-.
  - destruct (apply_op b0 op) as [b1|e] eqn:E; simpl in Hrun; [|discriminate].
    apply (IH b1 Hrun). eapply apply_op_NoDup; eauto.
Qed.

Lemma one_worker_per_cell_witness :
  List.NoDup (map position [mkWorker 1 1 0 BLUE; mkWorker 1 0 0 WHITE]).
Proof.
  apply (one_worker_per_cell 5 5 4 2
           [OpPlace BLUE 0 0; OpPlace WHITE 1 0; OpMove BLUE 0 0 1 1]
           board_5x5
           (set_workers board_5x5 [mkWorker 1 1 0 BLUE; mkWorker 1 0 0 WHITE]));
    vm_compute; reflexivity.
Defined.

(** ** The grid under [build] *)

Lemma int64_wrap_small (z : Z) :
  - 2 ^ 63 <= z < 2 ^ 63 -> int64_wrap z = z.
Proof.
  intros H. unfold int64_wrap. rewrite Z.mod_small; lia.
Qed.

(** X4. On a grid of the constructor's shape a successful [build] keeps the
    workers, raises the target cell, which was lower than [max_height], by
    one (as a 64-bit integer), and leaves every other cell of the grid as it
    was. *)
Theorem build_raises_one_cell
        (b b' : Board) (c : Color) (wx wy bx by_ : Z) :
  wf_blocks b ->
  build b c wx wy bx by_ = Ok b' ->
  workers b' = workers b
  /\ wf_blocks b'
  /\ (exists h, _block_height b bx by_ = Ok h /\ h < max_height b
                /\ _block_height b' bx by_ = Ok (int64_wrap (h + 1)))
  /\ (forall x y, in_grid b x y -> (x, y) <> (bx, by_) ->
                  _block_height b' x y = _block_height b x y).
Proof.
  intros Hwf H.
  destruct (build_valid _ _ _ _ _ _ _ H) as (w & _ & _ & _ & Hv & _).
  destruct (is_valid_build_true _ _ _ _ Hv) as (_ & _ & _ & h' & Hh' & Hlt).
  destruct (build_Ok _ _ _ _ _ _ _ Hwf H)
    as (row & h & Hin & Hfree & Hrow & Hh & ->).
  pose proof Hwf as [Hlen Hrows].
  assert (length row = Z.to_nat (b_width b)) as Hw.
  { rewrite Forall_forall in Hrows. apply Hrows, list_elem_of_lookup. eauto. }
  assert (wf_blocks
            (set_board_blocks b
               (<[Z.to_nat by_ := <[Z.to_nat bx := int64_wrap (h + 1)]> row]>
                  (board_blocks b)))) as Hwf'.
  { split; simpl.
    - now rewrite length_insert.
    - apply Forall_insert; [exact Hrows|]. now rewrite length_insert. }
  destruct (_block_height_inside _ _ _ Hwf Hin) as (row0 & h0 & Hrow0 & Hh0 & E0).
  assert (row0 = row) as -> by congruence.
  assert (h0 = h) as -> by congruence.
  assert (h' = h) as -> by congruence.
  destruct Hin as [Hbx Hby].
  split; [reflexivity|]. split; [exact Hwf'|]. split.
  - exists h. split; [exact E0|]. split; [exact Hlt|].
    destruct (_block_height_inside _ bx by_ Hwf' (conj Hbx Hby))
      as (row1 & h1 & Hrow1 & Hh1 & ->).
    simpl in Hrow1. rewrite list_lookup_insert_eq in Hrow1 by lia.
    injection Hrow1 as <-. rewrite list_lookup_insert_eq in Hh1 by lia.
    congruence.
  - intros x y Hxy Hne.
    destruct (_block_height_inside _ x y Hwf' Hxy) as (row1 & h1 & Hrow1 & Hh1 & ->).
    destruct (_block_height_inside _ x y Hwf Hxy) as (row2 & h2 & Hrow2 & Hh2 & ->).
    f_equal. simpl in Hrow1. destruct Hxy as [Hx Hy].
    destruct (decide (Z.to_nat by_ = Z.to_nat y)) as [Ey | Ney].
    + rewrite Ey in Hrow1. rewrite list_lookup_insert_eq in Hrow1 by lia.
      injection Hrow1 as <-.
      assert (Z.to_nat bx <> Z.to_nat x) as Nex.
      { intros Ex. apply Hne. f_equal; lia. }
      rewrite list_lookup_insert_ne in Hh1 by exact Nex.
      rewrite Ey in Hrow. congruence.
    + rewrite list_lookup_insert_ne in Hrow1 by exact Ney. congruence.
Qed.

Lemma build_raises_one_cell_witness :
  _block_height
    (set_board_blocks (set_workers board_3x3 [mkWorker 1 0 0 BLUE])
       [[0; 0; 1]; [0; 0; 0]; [0; 0; 0]]) 0 0
  = _block_height (set_workers board_3x3 [mkWorker 1 0 0 BLUE]) 0 0.
Proof.
  destruct (build_raises_one_cell
              (set_workers board_3x3 [mkWorker 1 0 0 BLUE])
              (set_board_blocks (set_workers board_3x3 [mkWorker 1 0 0 BLUE])
                 [[0; 0; 1]; [0; 0; 0]; [0; 0; 0]])
              BLUE 1 0 2 0) as (_ & _ & _ & Hother).
  - split; [reflexivity|]. repeat constructor.
  - vm_compute. reflexivity.
  - apply Hother; [unfold in_grid; simpl; lia | discriminate].
Defined.

(** ** The grid along a sequence of operations *)

Lemma np_zeros_bounded (length_ width mh : Z) (blocks : list (list Z)) :
  np_zeros length_ width = Ok blocks ->
  Forall (Forall (fun h => 0 <= h <= Z.max 0 mh)) blocks.
Proof.
  unfold np_zeros. destruct ((length_ <? 0) || (width <? 0)); [discriminate|].
  intros [= <-]. apply Forall_replicate, Forall_replicate. lia.
Qed.

Lemma apply_op_grid (b b' : Board) (op : BoardOp) :
  max_height b < 2 ^ 63 ->
  apply_op b op = Ok b' ->
  wf_blocks b /\ heights_bounded b ->
  wf_blocks b' /\ heights_bounded b'.
Proof.
  intros Hmh H [Hwf Hb].
  destruct op as [c x y | c sx sy ex ey | c wx wy bx by_ | ]; simpl in H.
  - apply place_worker_Ok in H as ->. split; [exact Hwf | exact Hb].
  - destruct (move_Ok _ _ _ _ _ _ _ H)
      as (idx & w & h & _ & _ & _ & _ & _ & _ & _ & ->).
    split; [exact Hwf | exact Hb].
  - destruct (build_valid _ _ _ _ _ _ _ H) as (w & _ & _ & _ & Hv & _).
    destruct (is_valid_build_true _ _ _ _ Hv) as (_ & _ & _ & h & Hh & Hlt).
    destruct (build_Ok _ _ _ _ _ _ _ Hwf H)
      as (row & h0 & Hin & _ & Hrow & Hh0 & ->).
    destruct (_block_height_inside _ _ _ Hwf Hin) as (row1 & h1 & Hrow1 & Hh1 & E1).
    assert (row1 = row) as -> by congruence.
    assert (h1 = h0) as -> by congruence.
    assert (h = h0) as -> by congruence.
    pose proof Hwf as [Hlen Hrows].
    assert (length row = Z.to_nat (b_width b)) as Hw.
    { rewrite Forall_forall in Hrows. apply Hrows, list_elem_of_lookup. eauto. }
    split.
    { split; simpl.
      - now rewrite length_insert.
      - apply Forall_insert; [exact Hrows|]. now rewrite length_insert. }
    unfold heights_bounded in *. simpl.
    pose proof (proj1 (Forall_lookup _ _) Hb _ _ Hrow) as Hrowb.
    pose proof (proj1 (Forall_lookup _ _) Hrowb _ _ Hh0) as Hcell.
    simpl in Hcell.
    apply Forall_insert; [exact Hb|].
    apply Forall_insert; [exact Hrowb|].
    rewrite int64_wrap_small by lia. lia.
  - unfold reset in H.
    destruct (np_zeros (b_length b) (b_width b)) as [blocks|e] eqn:E;
      simpl in H; [|discriminate].
    injection H as <-. split.
    + exact (np_zeros_shape _ _ _ E).
    + exact (np_zeros_bounded _ _ (max_height b) _ E).
Qed.

(** X5. From a fresh board whose [max_height] fits a 64-bit integer, along
    any sequence of successful operations, the grid keeps the shape
    length x width and every cell stays between 0 and [max_height]. *)
Theorem grid_stays_in_bounds
        (length_ width mh cap : Z) (ops : list BoardOp) (b0 b' : Board) :
  mh < 2 ^ 63 ->
  Board_init length_ width mh cap = Ok b0 ->
  run_ops b0 ops = Ok b' ->
  wf_blocks b' /\ heights_bounded b' /\ same_parameters b0 b'.
Proof.
  intros Hmh Hinit Hrun.
  destruct (Board_init_fields _ _ _ _ _ Hinit) as (_ & _ & Hm & _ & _).
  assert (wf_blocks b0 /\ heights_bounded b0) as H0.
  { split; [exact (proj1 (Board_init_grounded _ _ _ _ _ Hinit))|].
    unfold Board_init in Hinit.
    destruct (np_zeros length_ width) as [blocks|e] eqn:E; simpl in Hinit;
      [|discriminate].
    injection Hinit as <-. exact (np_zeros_bounded _ _ mh _ E). }
  split; [|split]; [| |exact (run_ops_same_parameters _ _ _ Hrun)].
  - rewrite <- Hm in Hmh. clear Hinit Hm. revert b0 Hrun H0 Hmh.
    induction ops as [|op ops IH]; simpl; intros b0 Hrun H0 Hmh.
    + injection Hrun as <-. exact (proj1 H0).
    + destruct (apply_op b0 op) as [b1|e] eqn:E; simpl in Hrun; [|discriminate].
      apply (IH b1 Hrun).
      * eapply apply_op_grid; eauto.
      * destruct (apply_op_same_parameters _ _ _ E) as (_ & _ & -> & _). exact Hmh.
  - rewrite <- Hm in Hmh. clear Hinit Hm. revert b0 Hrun H0 Hmh.
    induction ops as [|op ops IH]; simpl; intros b0 Hrun H0 Hmh.
    + injection Hrun as <-. exact (proj2 H0).
    + destruct (apply_op b0 op) as [b1|e] eqn:E; simpl in Hrun; [|discriminate].
      apply (IH b1 Hrun).
      * eapply apply_op_grid; eauto.
      * destruct (apply_op_same_parameters _ _ _ E) as (_ & _ & -> & _). exact Hmh.
Qed.

Lemma grid_stays_in_bounds_witness :
  heights_bounded
    (mkBoard 3 3 2 1 [mkWorker 1 1 1 BLUE] [[0; 0; 0]; [0; 1; 0]; [0; 0; 1]]).
Proof.
  apply (grid_stays_in_bounds 3 3 2 1
           [OpPlace BLUE 0 0; OpBuild BLUE 0 0 1 1; OpMove BLUE 0 0 1 1;
            OpBuild BLUE 1 1 2 2]
           board_3x3); [lia | vm_compute; reflexivity | vm_compute; reflexivity].
Defined.

(** ** No index leaves the grid *)

Lemma find_index_None {A} (f : A -> bool) (l : list A) :
  find_index f l = None -> existsb f l = false.
Proof.
  induction l as [|x l IH]; simpl; [reflexivity|].
  destruct (f x); [discriminate|].
  destruct (find_index f l); [discriminate|]. intros _. now apply IH.
Qed.

(** A move that the test accepts is carried out. *)
Lemma move_succeeds (b : Board) (c : Color) (idx : nat) (w : Worker) (ex ey : Z) :
  _get_worker_index b (w_x w) (w_y w) = Ok idx ->
  workers b !! idx = Some w ->
  w_color w = c ->
  is_valid_move b w ex ey = Ok true ->
  exists b', move b c (w_x w) (w_y w) ex ey = Ok b'.
Proof.
  intros Hidx Hw Hc Hv. unfold move. rewrite Hidx. simpl. rewrite Hw. simpl.
  rewrite Hc, Color_eqb_refl. simpl. rewrite Hv. simpl.
  destruct (is_valid_move_true _ _ _ _ Hv) as [_ (h & -> & _)]. simpl. eauto.
Qed.

(** A build that the test accepts is carried out. *)
Lemma build_succeeds (b : Board) (c : Color) (w : Worker) (wx wy bx by_ : Z) :
  wf_blocks b ->
  _get_worker_at b wx wy = Ok w ->
  w_color w = c ->
  is_valid_build b w bx by_ = Ok true ->
  exists b', build b c wx wy bx by_ = Ok b'.
Proof.
  intros Hwf Hat Hc Hv. unfold build. rewrite Hat. simpl.
  rewrite Hc, Color_eqb_refl. simpl. rewrite Hv. simpl.
  destruct (is_valid_build_true _ _ _ _ Hv) as (Hin & _).
  destruct (_block_height_inside _ _ _ Hwf Hin) as (row & h & Hrow & Hh & _).
  pose proof Hin as [Hx Hy]. pose proof Hwf as [Hlen Hrows].
  assert (length row = Z.to_nat (b_width b)) as Hw.
  { rewrite Forall_forall in Hrows. apply Hrows, list_elem_of_lookup. eauto. }
  unfold np_getitem.
  rewrite (np_index_inside (length (board_blocks b)) by_) by lia.
  simpl. rewrite Hrow. simpl.
  rewrite (np_index_inside (length row) bx) by lia.
  simpl. rewrite Hh. simpl.
  rewrite np_setitem_inside by lia. simpl.
  rewrite np_setitem_inside by lia. simpl. eauto.
Qed.

(** X6. On a grid of the constructor's shape [Board.move] and [Board.build]
    either succeed or raise IllegalMoveError: no coordinates, however far
    from the grid, make them raise IndexError. *)
Theorem move_and_build_raise_only_IllegalMoveError
        (b : Board) (c : Color) (x1 y1 x2 y2 : Z) :
  wf_blocks b ->
  ((exists b', move b c x1 y1 x2 y2 = Ok b')
   \/ move b c x1 y1 x2 y2 = Raise IllegalMoveError)
  /\ ((exists b', build b c x1 y1 x2 y2 = Ok b')
      \/ build b c x1 y1 x2 y2 = Raise IllegalMoveError).
Proof.
  intros Hwf. split.
  - unfold move, _get_worker_index.
    destruct (find_index (at_xy x1 y1) (workers b)) as [idx|] eqn:Ei;
      simpl; [|right; reflexivity].
    destruct (find_index_Some _ _ _ Ei) as (w & Hw & _). rewrite Hw. simpl.
    destruct (negb (Color_eqb (w_color w) c)); [right; reflexivity|].
    destruct (is_valid_move_total b w x2 y2 Hwf) as [[|] Hv]; rewrite Hv; simpl;
      [|right; reflexivity].
    destruct (is_valid_move_true _ _ _ _ Hv) as [_ (h & -> & _)]. simpl. eauto.
  - destruct (_get_worker_at b x1 y1) as [w|e] eqn:Eat.
    + destruct (Color_eqb (w_color w) c) eqn:Ec.
      * apply Color_eqb_eq in Ec.
        destruct (is_valid_build_total b w x2 y2 Hwf) as [[|] Hv].
        -- left. eapply build_succeeds; eauto.
        -- right. unfold build. rewrite Eat. simpl. rewrite Ec, Color_eqb_refl.
           simpl. now rewrite Hv.
      * right. unfold build. rewrite Eat. simpl. now rewrite Ec.
    + right. unfold build. rewrite Eat. simpl.
      unfold _get_worker_at in Eat. destruct (find _ _); [discriminate|].
      now injection Eat as <-.
Qed.

Lemma move_and_build_raise_only_IllegalMoveError_witness :
  move (board game_placed) BLUE 0 0 (-7) 12 = Raise IllegalMoveError
  /\ build (board game_placed) BLUE 0 0 40 (-1) = Raise IllegalMoveError.
Proof.
  destruct (move_and_build_raise_only_IllegalMoveError
              (board game_placed) BLUE 0 0 (-7) 12) as [_ _].
  - split; [reflexivity|]. repeat constructor.
  - split; vm_compute; reflexivity.
Defined.

(** ** The enumerations list all that is valid *)

Lemma filter_r_complete {A} (f : A -> result bool) (l l' : list A) (a : A) :
  filter_r f l = Ok l' -> In a l -> f a = Ok true -> In a l'.
Proof.
  revert l'. induction l as [|x l IH]; simpl; intros l' H Ha Hf; [destruct Ha|].
  destruct (f x) as [keep|e] eqn:Ex; simpl in H; [|discriminate].
  destruct (filter_r f l) as [rest|e]; simpl in H; [|discriminate].
  injection H as <-. destruct Ha as [-> | Ha].
  - rewrite Hf in Ex. injection Ex as <-. now left.
  - specialize (IH rest eq_refl Ha Hf). destruct keep; [now right | exact IH].
Qed.

Lemma neighbor_coordinates_In (w : Worker) (x y : Z) :
  neighbor_of (w_x w) (w_y w) x y -> In (x, y) (neighbor_coordinates w).
Proof.
  intros H. apply _is_neighboring_space_spec in H.
  unfold _is_neighboring_space in H. apply existsb_exists in H as (s & Hs & E).
  apply pair_eqb_eq in E. unfold neighbor_coordinates.
  apply in_map_iff. exists s. split; [|exact Hs].
  rewrite <- E. simpl. f_equal; lia.
Qed.

Lemma get_valid_moves_complete (b : Board) (w : Worker) (l : list MoveTurn) (x y : Z) :
  get_valid_moves b w = Ok l -> is_valid_move b w x y = Ok true ->
  In (mkMoveTurn (w_color w) (w_x w) (w_y w) x y) l.
Proof.
  intros Hl Hv. unfold get_valid_moves in Hl.
  destruct (filter_r _ (neighbor_coordinates w)) as [cs|e] eqn:Ef;
    simpl in Hl; [|discriminate].
  injection Hl as <-. apply in_map_iff. exists (x, y). split; [reflexivity|].
  apply (filter_r_complete _ _ _ _ Ef); [|exact Hv].
  apply neighbor_coordinates_In.
  now destruct (is_valid_move_true _ _ _ _ Hv) as [(_ & _ & Hn & _) _].
Qed.

Lemma get_valid_builds_complete (b : Board) (w : Worker) (l : list BuildTurn) (x y : Z) :
  get_valid_builds b w = Ok l -> is_valid_build b w x y = Ok true ->
  In (mkBuildTurn (w_color w) (w_x w) (w_y w) x y) l.
Proof.
  intros Hl Hv. unfold get_valid_builds in Hl.
  destruct (filter_r _ (neighbor_coordinates w)) as [cs|e] eqn:Ef;
    simpl in Hl; [|discriminate].
  injection Hl as <-. apply in_map_iff. exists (x, y). split; [reflexivity|].
  apply (filter_r_complete _ _ _ _ Ef); [|exact Hv].
  apply neighbor_coordinates_In.
  now destruct (is_valid_build_true _ _ _ _ Hv) as (_ & _ & Hn & _).
Qed.

Lemma filter_r_NoDup {A} (f : A -> result bool) (l l' : list A) :
  filter_r f l = Ok l' -> List.NoDup l -> List.NoDup l'.
Proof.
  revert l'. induction l as [|a l IH]; simpl; intros l' H Hnd.
  - injection H as <-. constructor.
  - inversion Hnd as [|? ? Ha Hl]; subst.
    destruct (f a) as [keep|e]; simpl in H; [|discriminate].
    destruct (filter_r f l) as [rest|e] eqn:Er; simpl in H; [|discriminate].
    injection H as <-. specialize (IH rest eq_refl Hl).
    destruct keep; [|exact IH]. constructor; [|exact IH].
    intros Hin. apply Ha. now destruct (filter_r_In f l rest a Er Hin).
Qed.

Lemma NoDup_map_injective {A B} (f : A -> B) (l : list A) :
  (forall a a', f a = f a' -> a = a') -> List.NoDup l -> List.NoDup (map f l).
Proof.
  intros Hinj Hnd. induction Hnd as [|a l Ha Hl IH]; simpl; constructor; auto.
  intros Hin. apply in_map_iff in Hin as (a' & E & Ha').
  apply Hinj in E. subst a'. contradiction.
Qed.

Lemma neighbor_coordinates_NoDup (w : Worker) :
  List.NoDup (neighbor_coordinates w).
Proof.
  unfold neighbor_coordinates. apply NoDup_map_injective.
  - intros [a1 a2] [b1 b2] [= H1 H2]. f_equal; lia.
  - change _neighboring_shifts
      with [(0, -1); (0, 1); (-1, 0); (-1, -1); (-1, 1); (1, 0); (1, -1); (1, 1)].
    repeat constructor; simpl; intuition discriminate.
Qed.

(** X7. [get_valid_moves] and [get_valid_builds] list, each once, exactly
    the turns that start with the colour and at the position of the worker
    and end on a target that [is_valid_move], respectively [is_valid_build],
    accepts. *)
Theorem enumerations_are_exact (b : Board) (w : Worker) :
  (forall l, get_valid_moves b w = Ok l ->
     List.NoDup l
     /\ forall m, In m l
                  <-> mt_color m = w_color w
                      /\ start_x m = w_x w /\ start_y m = w_y w
                      /\ is_valid_move b w (end_x m) (end_y m) = Ok true)
  /\ (forall l, get_valid_builds b w = Ok l ->
        List.NoDup l
        /\ forall t, In t l
                     <-> bt_color t = w_color w
                         /\ worker_x t = w_x w /\ worker_y t = w_y w
                         /\ is_valid_build b w (build_x t) (build_y t) = Ok true).
Proof.
  split; intros l Hl; split.
  - unfold get_valid_moves in Hl.
    destruct (filter_r _ (neighbor_coordinates w)) as [cs|e] eqn:Ef;
      simpl in Hl; [|discriminate].
    injection Hl as <-. apply NoDup_map_injective.
    + intros [a1 a2] [b1 b2] [= -> ->]. reflexivity.
    + exact (filter_r_NoDup _ _ _ Ef (neighbor_coordinates_NoDup w)).
  - intros m. split.
    + intros Hin. destruct (get_valid_moves_In _ _ _ _ Hl Hin) as (Hv & Hx & Hy & Hc).
      auto.
    + intros (Hc & Hx & Hy & Hv). destruct m as [mc msx msy mex mey].
      simpl in *. subst mc msx msy. now apply (get_valid_moves_complete b).
  - unfold get_valid_builds in Hl.
    destruct (filter_r _ (neighbor_coordinates w)) as [cs|e] eqn:Ef;
      simpl in Hl; [|discriminate].
    injection Hl as <-. apply NoDup_map_injective.
    + intros [a1 a2] [b1 b2] [= -> ->]. reflexivity.
    + exact (filter_r_NoDup _ _ _ Ef (neighbor_coordinates_NoDup w)).
  - intros t. split.
    + intros Hin. destruct (get_valid_builds_In _ _ _ _ Hl Hin) as (Hv & Hx & Hy & Hc).
      auto.
    + intros (Hc & Hx & Hy & Hv). destruct t as [tc twx twy tbx tby].
      simpl in *. subst tc twx twy. now apply (get_valid_builds_complete b).
Qed.

Lemma enumerations_are_exact_witness :
  List.NoDup [mkMoveTurn BLUE 0 0 0 1; mkMoveTurn BLUE 0 0 1 0]
  /\ ~ In (mkMoveTurn WHITE 0 0 1 0)
         [mkMoveTurn BLUE 0 0 0 1; mkMoveTurn BLUE 0 0 1 0]
  /\ ~ In (mkMoveTurn BLUE 0 0 1 1)
         [mkMoveTurn BLUE 0 0 0 1; mkMoveTurn BLUE 0 0 1 0].
Proof.
  destruct (enumerations_are_exact (board game_placed) (mkWorker 0 0 0 BLUE))
    as [Hm _].
  destruct (Hm [mkMoveTurn BLUE 0 0 0 1; mkMoveTurn BLUE 0 0 1 0])
    as [Hnd Hiff]; [vm_compute; reflexivity|].
  split; [exact Hnd|]. split.
  - intros Hin. apply Hiff in Hin as (Hc & _). simpl in Hc. discriminate.
  - intros Hin. apply Hiff in Hin as (_ & _ & _ & Hv). vm_compute in Hv.
    discriminate.
Defined.

(** ** The enumerations and the operations agree *)

Lemma NoDup_map_In_eq {A B} (f : A -> B) (l : list A) (a a' : A) :
  List.NoDup (map f l) -> In a l -> In a' l -> f a = f a' -> a = a'.
Proof.
  induction l as [|x l IH]; simpl; intros Hnd Ha Ha' Hf; [destruct Ha|].
  inversion Hnd as [|? ? Hx Hl]; subst.
  destruct Ha as [-> | Ha], Ha' as [-> | Ha']; auto.
  - exfalso. apply Hx. rewrite Hf. now apply in_map.
  - exfalso. apply Hx. rewrite <- Hf. now apply in_map.
Qed.

Lemma find_Some_In {A} (f : A -> bool) (l : list A) (a : A) :
  find f l = Some a -> In a l /\ f a = true.
Proof. apply find_some. Qed.

(** With one worker per cell, a worker of the board is the one found at its
    own position, by value and by index. *)
Lemma worker_found_at_its_position (b : Board) (w : Worker) :
  List.NoDup (map position (workers b)) -> In w (workers b) ->
  _get_worker_at b (w_x w) (w_y w) = Ok w
  /\ exists idx, _get_worker_index b (w_x w) (w_y w) = Ok idx
                 /\ workers b !! idx = Some w.
Proof.
  intros Hnd Hw.
  assert (forall w', In w' (workers b) -> at_xy (w_x w) (w_y w) w' = true -> w' = w)
    as Huniq.
  { intros w' Hw' Hat. apply at_xy_true in Hat as [Hx Hy].
    apply (NoDup_map_In_eq position (workers b)); auto.
    unfold position. congruence. }
  assert (existsb (at_xy (w_x w) (w_y w)) (workers b) = true) as Hex.
  { apply existsb_exists. exists w. split; [exact Hw|]. now apply at_xy_true. }
  split.
  - unfold _get_worker_at.
    destruct (find (at_xy (w_x w) (w_y w)) (workers b)) as [w'|] eqn:Ef.
    + apply find_Some_In in Ef as [Hin Hat]. now rewrite (Huniq w' Hin Hat).
    + exfalso. apply existsb_exists in Hex as (w' & Hin & Hat).
      pose proof (find_none _ _ Ef w' Hin). congruence.
  - unfold _get_worker_index.
    destruct (find_index (at_xy (w_x w) (w_y w)) (workers b)) as [idx|] eqn:Ei.
    + exists idx. split; [reflexivity|].
      destruct (find_index_Some _ _ _ Ei) as (w' & Hw' & Hat).
      rewrite Hw'. f_equal. apply Huniq; [|exact Hat].
      apply list_elem_of_In, list_elem_of_lookup. eauto.
    + apply find_index_None in Ei. congruence.
Qed.

(** X8. With one worker per cell, [Board.move] carries out every move that
    [get_valid_moves] lists for a worker of the board; and, on a grid of the
    constructor's shape, [Board.build] carries out every build that
    [get_valid_builds] lists. *)
Theorem enumerated_turns_are_accepted (b : Board) (w : Worker) :
  List.NoDup (map position (workers b)) ->
  In w (workers b) ->
  (forall l m, get_valid_moves b w = Ok l -> In m l ->
     exists b', move b (mt_color m) (start_x m) (start_y m) (end_x m) (end_y m)
                = Ok b')
  /\ (wf_blocks b ->
      forall l t, get_valid_builds b w = Ok l -> In t l ->
        exists b', build b (bt_color t) (worker_x t) (worker_y t)
                         (build_x t) (build_y t) = Ok b').
Proof.
  intros Hnd Hw.
  destruct (worker_found_at_its_position b w Hnd Hw) as (Hat & idx & Hidx & Hlook).
  split.
  - intros l m Hl Hm.
    destruct (get_valid_moves_In _ _ _ _ Hl Hm) as (Hv & -> & -> & ->).
    eapply move_succeeds; eauto.
  - intros Hwf l t Hl Ht.
    destruct (get_valid_builds_In _ _ _ _ Hl Ht) as (Hv & -> & -> & ->).
    eapply build_succeeds; eauto.
Qed.

Lemma enumerated_turns_are_accepted_witness :
  exists b', move (board game_placed) BLUE 0 0 1 0 = Ok b'.
Proof.
  destruct (enumerated_turns_are_accepted (board game_placed) (mkWorker 0 0 0 BLUE))
    as [Hm _].
  - vm_compute. repeat constructor; simpl; intuition discriminate.
  - left. reflexivity.
  - apply (Hm [mkMoveTurn BLUE 0 0 0 1; mkMoveTurn BLUE 0 0 1 0]
              (mkMoveTurn BLUE 0 0 1 0)).
    + vm_compute. reflexivity.
    + right. left. reflexivity.
Defined.

(** X9. A move that [Board.move] carries out is one that [get_valid_moves]
    lists for the worker found at the start, and a build that [Board.build]
    carries out is one that [get_valid_builds] lists for the worker found at
    the given position. *)
Theorem accepted_turns_are_enumerated (b b' : Board) (c : Color) (x1 y1 x2 y2 : Z) :
  wf_blocks b ->
  (move b c x1 y1 x2 y2 = Ok b' ->
   exists w l, _get_worker_at b x1 y1 = Ok w
               /\ get_valid_moves b w = Ok l
               /\ In (mkMoveTurn c x1 y1 x2 y2) l)
  /\ (build b c x1 y1 x2 y2 = Ok b' ->
      exists w l, _get_worker_at b x1 y1 = Ok w
                  /\ get_valid_builds b w = Ok l
                  /\ In (mkBuildTurn c x1 y1 x2 y2) l).
Proof.
  intros Hwf. split; intros H.
  - destruct (move_Ok _ _ _ _ _ _ _ H)
      as (idx & w & h & Hidx & Hw & Hx & Hy & Hc & Hv & _ & _).
    destruct (get_valid_moves_total b w Hwf) as [l Hl].
    exists w, l. split; [|split; [exact Hl|]].
    + unfold _get_worker_at. unfold _get_worker_index in Hidx.
      destruct (find_index (at_xy x1 y1) (workers b)) as [i|] eqn:Ei;
        [|discriminate].
      injection Hidx as ->.
      clear - Ei Hw. revert idx Ei Hw.
      induction (workers b) as [|v ws IH]; simpl; intros idx Ei Hw; [discriminate|].
      destruct (at_xy x1 y1 v).
      * injection Ei as <-. simpl in Hw. now injection Hw as ->.
      * destruct (find_index (at_xy x1 y1) ws) as [j|]; simpl in Ei; [|discriminate].
        injection Ei as <-. simpl in Hw. now apply (IH j).
    + subst. now apply (get_valid_moves_complete b).
  - destruct (build_valid _ _ _ _ _ _ _ H) as (w & blocks' & Hat & Hc & Hv & _).
    destruct (get_valid_builds_total b w Hwf) as [l Hl].
    exists w, l. split; [exact Hat|]. split; [exact Hl|].
    unfold _get_worker_at in Hat.
    destruct (find (at_xy x1 y1) (workers b)) as [w'|] eqn:Ef; [|discriminate].
    injection Hat as ->. apply find_Some_In in Ef as [_ Hxy].
    apply at_xy_true in Hxy as [<- <-]. subst c.
    now apply (get_valid_builds_complete b).
Qed.

Lemma accepted_turns_are_enumerated_witness :
  exists w l, _get_worker_at (board game_placed) 0 0 = Ok w
              /\ get_valid_moves (board game_placed) w = Ok l
              /\ In (mkMoveTurn BLUE 0 0 1 0) l.
Proof.
  assert (wf_blocks (board game_placed)) as Hwf
      by (split; [reflexivity | repeat constructor]).
  apply (proj1 (accepted_turns_are_enumerated (board game_placed)
                  (set_workers board_3x3 [mkWorker 1 0 0 BLUE; mkWorker 1 1 0 WHITE])
                  BLUE 0 0 1 0 Hwf)).
  vm_compute. reflexivity.
Defined.

(** ** The enumeration of placements *)

Lemma In_range (n z : Z) : In z (range n) <-> 0 <= z < n.
Proof.
  unfold range. rewrite in_map_iff. split.
  - intros (k & <- & Hk). apply in_seq in Hk. lia.
  - intros H. exists (Z.to_nat z). split; [lia|]. apply in_seq. lia.
Qed.

Lemma In_product {A B} (l1 : list A) (l2 : list B) (a : A) (b : B) :
  In (a, b) (product l1 l2) <-> In a l1 /\ In b l2.
Proof.
  unfold product. rewrite in_flat_map. split.
  - intros (a' & Ha & Hb). apply in_map_iff in Hb as (b' & [= -> ->] & Hb). auto.
  - intros [Ha Hb]. exists a. split; [exact Ha|]. now apply in_map.
Qed.

(** X10. [get_valid_placements] lists, in the player's colour, exactly the
    cells of the grid that hold no worker, and nothing once the player has
    reached the cap; [place_worker] carries out every placement listed. *)
Theorem get_valid_placements_spec (b : Board) (c : Color) (p : PlaceWorkerTurn) :
  (In p (get_valid_placements b c)
   <-> pw_color p = c
       /\ in_grid b (pw_x p) (pw_y p)
       /\ unoccupied b (pw_x p) (pw_y p)
       /\ _num_workers b c < max_workers_per_player b)
  /\ (In p (get_valid_placements b c) ->
      place_worker b (pw_color p) (pw_x p) (pw_y p)
      = Ok (set_workers b (workers b ++ [mkWorker (pw_x p) (pw_y p) 0 c])))
  /\ (max_workers_per_player b <= _num_workers b c ->
      get_valid_placements b c = []).
Proof.
  assert (In p (get_valid_placements b c)
          <-> pw_color p = c
              /\ in_grid b (pw_x p) (pw_y p)
              /\ unoccupied b (pw_x p) (pw_y p)
              /\ _num_workers b c < max_workers_per_player b) as Hiff.
  { unfold get_valid_placements. rewrite in_map_iff. split.
    - intros ([x y] & <- & Hin). apply filter_In in Hin as [Hin Hv]. simpl in *.
      apply In_product in Hin as [Hx Hy].
      apply In_range in Hx. apply In_range in Hy.
      unfold is_valid_placement in Hv.
      destruct (_is_on_board b x y); [|discriminate].
      apply andb_true_iff in Hv as [Hcap Hfree].
      apply negb_true_iff, _worker_on_space_false in Hfree.
      apply Z.ltb_lt in Hcap. unfold in_grid. auto.
    - intros (Hc & Hin & Hfree & Hcap). destruct p as [pc x y]. simpl in *.
      subst pc. exists (x, y). split; [reflexivity|].
      apply filter_In. simpl. split.
      + apply In_product. destruct Hin. split; now apply In_range.
      + unfold is_valid_placement, player_can_place_workers.
        apply _is_on_board_in_grid in Hin. rewrite Hin.
        apply _worker_on_space_false in Hfree. rewrite Hfree.
        apply Z.ltb_lt in Hcap. now rewrite Hcap. }
  split; [exact Hiff|]. split.
  - intros Hin. apply Hiff in Hin as (-> & _ & Hfree & Hcap).
    unfold place_worker, player_can_place_workers.
    apply Z.ltb_lt in Hcap. rewrite Hcap.
    apply _worker_on_space_false in Hfree. now rewrite Hfree.
  - intros Hcap. unfold get_valid_placements.
    replace (List.filter _ _) with (@nil (Z * Z)); [reflexivity|].
    symmetry. induction (product (range (b_width b)) (range (b_length b)))
      as [|xy l IH]; simpl; [reflexivity|].
    unfold is_valid_placement at 1, player_can_place_workers.
    replace (_num_workers b c <? max_workers_per_player b) with false
      by (symmetry; apply Z.ltb_ge; lia).
    simpl. now destruct (_is_on_board b (fst xy) (snd xy)).
Qed.

Lemma get_valid_placements_spec_witness :
  place_worker (board game_start) BLUE 2 1
  = Ok (set_workers (board game_start) [mkWorker 2 1 0 BLUE])
  /\ get_valid_placements (board game_placed) BLUE = [].
Proof.
  destruct (get_valid_placements_spec (board game_start) BLUE
              (mkPlaceWorkerTurn BLUE 2 1)) as (_ & Hp & _).
  destruct (get_valid_placements_spec (board game_placed) BLUE
              (mkPlaceWorkerTurn BLUE 2 1)) as (_ & _ & He).
  split.
  - apply Hp. vm_compute. tauto.
  - apply He. vm_compute. discriminate.
Defined.

(** ** Whether a player can act *)

Lemma any_r_spec {A} (f : A -> result bool) (l : list A) :
  (forall a, In a l -> exists v, f a = Ok v) ->
  exists v, any_r f l = Ok v
            /\ (v = true <-> exists a, In a l /\ f a = Ok true).
Proof.
  induction l as [|x l IH]; simpl; intros Hf.
  - exists false. split; [reflexivity|]. split; [discriminate|].
    intros (a & [] & _).
  - destruct (Hf x (or_introl eq_refl)) as [v Hv]. rewrite Hv. simpl.
    destruct v.
    + exists true. split; [reflexivity|]. split; [|reflexivity].
      intros _. exists x. auto.
    + destruct IH as (v & -> & Hiff); [intros a Ha; apply Hf; now right|].
      exists v. split; [reflexivity|]. rewrite Hiff. split.
      * intros (a & Ha & E). exists a. auto.
      * intros (a & [<- | Ha] & E); [congruence|]. exists a. auto.
Qed.

Lemma has_valid_move (b : Board) (w : Worker) :
  wf_blocks b ->
  exists v, (let? l := get_valid_moves b w in Ok (negb (length l =? 0)%nat)) = Ok v
            /\ (v = true <-> exists x y, is_valid_move b w x y = Ok true).
Proof.
  intros Hwf. destruct (get_valid_moves_total b w Hwf) as [l Hl].
  rewrite Hl. simpl. exists (negb (length l =? 0)%nat). split; [reflexivity|].
  destruct l as [|m l]; simpl; split.
  - discriminate.
  - intros (x & y & Hv).
    destruct (get_valid_moves_complete b w [] x y Hl Hv).
  - intros _. exists (end_x m), (end_y m).
    now destruct (get_valid_moves_In b w _ m Hl (or_introl eq_refl)).
  - reflexivity.
Qed.

Lemma has_valid_build (b : Board) (w : Worker) :
  wf_blocks b ->
  exists v, (let? l := get_valid_builds b w in Ok (negb (length l =? 0)%nat)) = Ok v
            /\ (v = true <-> exists x y, is_valid_build b w x y = Ok true).
Proof.
  intros Hwf. destruct (get_valid_builds_total b w Hwf) as [l Hl].
  rewrite Hl. simpl. exists (negb (length l =? 0)%nat). split; [reflexivity|].
  destruct l as [|t l]; simpl; split.
  - discriminate.
  - intros (x & y & Hv).
    destruct (get_valid_builds_complete b w [] x y Hl Hv).
  - intros _. exists (build_x t), (build_y t).
    now destruct (get_valid_builds_In b w _ t Hl (or_introl eq_refl)).
  - reflexivity.
Qed.

Lemma In_get_workers_with_color (b : Board) (c : Color) (w : Worker) :
  In w (get_workers_with_color b c) <-> In w (workers b) /\ w_color w = c.
Proof.
  unfold get_workers_with_color. rewrite filter_In, Color_eqb_eq. tauto.
Qed.

(** X11. On a grid of the constructor's shape [player_can_move] and
    [player_can_build] return, and answer [True] exactly when some worker of
    the player has a target that [is_valid_move], respectively
    [is_valid_build], accepts; [player_in_lose_state_before_move] is the
    negation of the former. *)
Theorem player_can_act_spec (b : Board) (c : Color) :
  wf_blocks b ->
  (exists v, player_can_move b c = Ok v
             /\ player_in_lose_state_before_move b c = Ok (negb v)
             /\ (v = true <->
                 exists w x y, In w (workers b) /\ w_color w = c
                               /\ is_valid_move b w x y = Ok true))
  /\ (exists v, player_can_build b c = Ok v
                /\ (v = true <->
                    exists w x y, In w (workers b) /\ w_color w = c
                                  /\ is_valid_build b w x y = Ok true)).
Proof.
  intros Hwf. split.
  - destruct (any_r_spec
                (fun w => let? l := get_valid_moves b w in
                          Ok (negb (length l =? 0)%nat))
                (get_workers_with_color b c)) as (v & Hv & Hiff).
    { intros w _. destruct (has_valid_move b w Hwf) as (v & Hv & _). eauto. }
    exists v. unfold player_in_lose_state_before_move, player_can_move.
    rewrite Hv. simpl. split; [reflexivity|]. split; [reflexivity|].
    rewrite Hiff. split.
    + intros (w & Hw & E). apply In_get_workers_with_color in Hw as [Hw Hc].
      destruct (has_valid_move b w Hwf) as (v' & Hv' & Hiff').
      rewrite Hv' in E. injection E as ->.
      destruct (proj1 Hiff' eq_refl) as (x & y & Hxy). eauto 10.
    + intros (w & x & y & Hw & Hc & Hxy). exists w. split.
      * now apply In_get_workers_with_color.
      * destruct (has_valid_move b w Hwf) as (v' & Hv' & Hiff').
        rewrite Hv'. f_equal. apply Hiff'. eauto.
  - destruct (any_r_spec
                (fun w => let? l := get_valid_builds b w in
                          Ok (negb (length l =? 0)%nat))
                (get_workers_with_color b c)) as (v & Hv & Hiff).
    { intros w _. destruct (has_valid_build b w Hwf) as (v & Hv & _). eauto. }
    exists v. unfold player_can_build.
    rewrite Hv. split; [reflexivity|].
    rewrite Hiff. split.
    + intros (w & Hw & E). apply In_get_workers_with_color in Hw as [Hw Hc].
      destruct (has_valid_build b w Hwf) as (v' & Hv' & Hiff').
      rewrite Hv' in E. injection E as ->.
      destruct (proj1 Hiff' eq_refl) as (x & y & Hxy). eauto 10.
    + intros (w & x & y & Hw & Hc & Hxy). exists w. split.
      * now apply In_get_workers_with_color.
      * destruct (has_valid_build b w Hwf) as (v' & Hv' & Hiff').
        rewrite Hv'. f_equal. apply Hiff'. eauto.
Qed.

Lemma player_can_act_spec_witness :
  exists v, player_can_move (board game_blocked) BLUE = Ok v
            /\ player_in_lose_state_before_move (board game_blocked) BLUE
               = Ok (negb v).
Proof.
  destruct (player_can_act_spec (board game_blocked) BLUE)
    as [(v & Hv & Hl & _) _].
  - split; [reflexivity | repeat constructor].
  - exists v. split; [exact Hv | exact Hl].
Defined.

(** X12. [player_in_lose_state_after_move] raises IllegalMoveError when no
    worker stands on the coordinates given; on a grid of the constructor's
    shape it otherwise answers [True] exactly when [is_valid_build] accepts
    no target for the worker found there. *)
Theorem player_in_lose_state_after_move_spec (b : Board) (x y : Z) :
  (unoccupied b x y ->
   player_in_lose_state_after_move b x y = Raise IllegalMoveError)
  /\ (wf_blocks b ->
      forall w, _get_worker_at b x y = Ok w ->
        exists v, player_in_lose_state_after_move b x y = Ok v
                  /\ (v = true <->
                      forall bx by_, is_valid_build b w bx by_ <> Ok true)).
Proof.
  split.
  - intros Hfree. unfold player_in_lose_state_after_move, _get_worker_at.
    destruct (find (at_xy x y) (workers b)) as [w|] eqn:Ef; [|reflexivity].
    apply find_Some_In in Ef as [Hw Hat]. apply at_xy_true in Hat.
    destruct (Hfree w Hw Hat).
  - intros Hwf w Hat. unfold player_in_lose_state_after_move. rewrite Hat. simpl.
    destruct (has_valid_build b w Hwf) as (v & Hv & Hiff).
    destruct (get_valid_builds b w) as [l|e]; simpl in *; [|discriminate].
    injection Hv as <-. exists (length l =? 0)%nat. split; [reflexivity|].
    destruct (length l =? 0)%nat; simpl in Hiff; split.
    + intros _ bx by_ Hv. destruct Hiff as [_ Hiff].
      assert (false = true) by (apply Hiff; eauto). discriminate.
    + reflexivity.
    + discriminate.
    + intros Hnone. destruct (proj1 Hiff eq_refl) as (bx & by_ & Hv).
      destruct (Hnone bx by_ Hv).
Qed.

Lemma player_in_lose_state_after_move_spec_witness :
  player_in_lose_state_after_move (board game_placed) 2 2 = Raise IllegalMoveError.
Proof.
  apply (player_in_lose_state_after_move_spec (board game_placed) 2 2).
  intros w Hw. vm_compute in Hw.
  destruct Hw as [<- | [<- | []]]; simpl; intros [H _]; discriminate.
Defined.

(** ** A whole turn, tested and played *)

Lemma is_valid_move_is_valid_build (b : Board) (w : Worker) (x y : Z) :
  is_valid_move b w x y = Ok true -> is_valid_build b w x y = Ok true.
Proof.
  unfold is_valid_move, is_valid_build.
  destruct (_is_on_board b x y); [|discriminate].
  destruct (_block_height b x y) as [h|e]; simpl; [|discriminate].
  intros [= H]. rewrite !andb_true_iff in H. destruct H as [[[_ H2] H3] H4].
  now rewrite H2, H3, H4.
Qed.

Lemma existsb_insert_at {A} (f : A -> bool) (l : list A) (i : nat) (a : A) :
  (i < length l)%nat -> f a = true -> existsb f (<[i := a]> l) = true.
Proof.
  revert i. induction l as [|x l IH]; simpl; intros i Hi Ha; [lia|].
  destruct i as [|i].
  - change (<[0%nat := a]> (x :: l)) with (a :: l). simpl. now rewrite Ha.
  - change (<[S i := a]> (x :: l)) with (x :: <[i := a]> l). simpl.
    rewrite IH by (auto; lia). apply orb_true_r.
Qed.

(** X13. [is_valid_turn] tests the build from where the worker stands before
    the move: it accepts a turn that moves to a valid cell and builds on that
    same cell, and when the turn is played [Board.move] succeeds and
    [Board.build] from the new position then raises IllegalMoveError. *)
Theorem is_valid_turn_accepts_building_under_oneself
        (b : Board) (w : Worker) (x y : Z) :
  List.NoDup (map position (workers b)) ->
  In w (workers b) ->
  is_valid_move b w x y = Ok true ->
  is_valid_turn b w x y x y = Ok true
  /\ exists b', move b (w_color w) (w_x w) (w_y w) x y = Ok b'
                /\ build b' (w_color w) x y x y = Raise IllegalMoveError.
Proof.
  intros Hnd Hw Hv. split.
  - unfold is_valid_turn. rewrite Hv. simpl.
    now apply is_valid_move_is_valid_build.
  - destruct (worker_found_at_its_position b w Hnd Hw) as (_ & idx & Hidx & Hlook).
    destruct (move_succeeds b (w_color w) idx w x y Hidx Hlook eq_refl Hv)
      as [b' Hmove].
    exists b'. split; [exact Hmove|].
    destruct (move_Ok _ _ _ _ _ _ _ Hmove)
      as (idx' & w' & h & Hidx' & Hlook' & _ & _ & _ & _ & Hh & ->).
    rewrite Hidx in Hidx'. injection Hidx' as <-.
    assert (idx < length (workers b))%nat as Hlt by (eapply lookup_lt_Some; eauto).
    destruct (is_valid_move_true _ _ _ _ Hv) as [(Hin & Hfree & _) _].
    apply _worker_on_space_false in Hfree. apply _is_on_board_in_grid in Hin.
    unfold build, _get_worker_at. simpl.
    rewrite (find_insert_fresh (at_xy x y) (workers b) idx
               (mkWorker x y h (w_color w)));
      [| exact Hfree | exact Hlt | apply at_xy_true; auto].
    simpl. rewrite Color_eqb_refl. simpl.
    unfold is_valid_build. change (_is_on_board _ x y) with (_is_on_board b x y).
    rewrite Hin. change (_block_height _ x y) with (_block_height b x y).
    rewrite Hh. simpl. unfold _worker_on_space. simpl.
    rewrite existsb_insert_at; [| exact Hlt | apply at_xy_true; auto].
    simpl. rewrite andb_false_r. reflexivity.
Qed.

Lemma is_valid_turn_accepts_building_under_oneself_witness :
  is_valid_turn (board game_placed) (mkWorker 0 0 0 BLUE) 1 0 1 0 = Ok true
  /\ exists b', move (board game_placed) BLUE 0 0 1 0 = Ok b'
                /\ build b' BLUE 1 0 1 0 = Raise IllegalMoveError.
Proof.
  apply (is_valid_turn_accepts_building_under_oneself
           (board game_placed) (mkWorker 0 0 0 BLUE) 1 0).
  - vm_compute. repeat constructor; simpl; intuition discriminate.
  - left. reflexivity.
  - vm_compute. reflexivity.
Defined.

(** ** Drawing the workers *)

Lemma np_index_outside (n : nat) (i : Z) :
  ~ (- Z.of_nat n <= i < Z.of_nat n) -> np_index n i = Raise IndexError.
Proof.
  intros H. unfold np_index.
  destruct ((0 <=? i) && (i <? Z.of_nat n)) eqn:E1.
  - apply andb_true_iff in E1 as [H1 H2].
    apply Z.leb_le in H1. apply Z.ltb_lt in H2. lia.
  - destruct ((- Z.of_nat n <=? i) && (i <? 0)) eqn:E2; [|reflexivity].
    apply andb_true_iff in E2 as [H1 H2].
    apply Z.leb_le in H1. apply Z.ltb_lt in H2. lia.
Qed.

Lemma np_index_raises (n : nat) (i : Z) (e : Exn) :
  np_index n i = Raise e -> e = IndexError.
Proof.
  unfold np_index. destruct (_ && _); [discriminate|].
  destruct (_ && _); [discriminate|]. now intros [= <-].
Qed.

Lemma np_index_lt (n : nat) (i : Z) (k : nat) :
  np_index n i = Ok k -> (k < n)%nat.
Proof.
  unfold np_index. destruct ((0 <=? i) && (i <? Z.of_nat n)) eqn:E1.
  - apply andb_true_iff in E1 as [H1 H2].
    apply Z.leb_le in H1. apply Z.ltb_lt in H2. intros [= <-]. lia.
  - destruct ((- Z.of_nat n <=? i) && (i <? 0)) eqn:E2; [|discriminate].
    apply andb_true_iff in E2 as [H1 H2].
    apply Z.leb_le in H1. apply Z.ltb_lt in H2. intros [= <-]. lia.
Qed.

(** Storing into a cell keeps the shape, and raises nothing but IndexError,
    which it does outside of the range that numpy wraps around. *)
Lemma np_setitem2_cases {A} (rows cols : Z) (a : list (list A)) (y x : Z) (v : A) :
  0 <= rows -> 0 <= cols -> has_shape rows cols a ->
  ((exists a', np_setitem2 a y x v = Ok a' /\ has_shape rows cols a')
   \/ np_setitem2 a y x v = Raise IndexError)
  /\ (~ (- cols <= x < cols /\ - rows <= y < rows) ->
      np_setitem2 a y x v = Raise IndexError).
Proof.
  intros Hr Hc [Hlen Hrows]. unfold np_setitem2, np_getitem, np_setitem.
  destruct (np_index (length a) y) as [k|e] eqn:Ek; simpl.
  - pose proof (np_index_lt _ _ _ Ek) as Hk.
    destruct (lookup_lt_is_Some_2 a k Hk) as [row Hrow]. rewrite Hrow. simpl.
    assert (length row = Z.to_nat cols) as Hw.
    { rewrite Forall_forall in Hrows. apply Hrows, list_elem_of_lookup. eauto. }
    destruct (np_index (length row) x) as [j|e] eqn:Ej; simpl.
    + split.
      * left. eexists. split; [reflexivity|]. split.
        -- now rewrite length_insert.
        -- apply Forall_insert; [exact Hrows|]. now rewrite length_insert.
      * intros Hout. exfalso.
        destruct (decide (- cols <= x < cols)) as [Hx|Hx].
        -- assert (~ (- Z.of_nat (length a) <= y < Z.of_nat (length a))) as Hy
               by (rewrite Hlen; lia).
           rewrite (np_index_outside _ _ Hy) in Ek. discriminate.
        -- assert (~ (- Z.of_nat (length row) <= x < Z.of_nat (length row))) as Hx'
               by (rewrite Hw; lia).
           rewrite (np_index_outside _ _ Hx') in Ej. discriminate.
    + apply np_index_raises in Ej as ->. split; [right|intros _]; reflexivity.
  - apply np_index_raises in Ek as ->. split; [right|intros _]; reflexivity.
Qed.

Lemma fold_left_raise {A B} (step : A -> B -> result A) (l : list B) (e : Exn) :
  fold_left (fun acc x => let? a := acc in step a x) l (Raise e) = Raise e.
Proof. induction l as [|x l IH]; simpl; [reflexivity | exact IH]. Qed.

Lemma np_full_shape {A} (rows cols : Z) (v : A) :
  0 <= rows -> 0 <= cols ->
  np_full rows cols v = Ok (replicate (Z.to_nat rows) (replicate (Z.to_nat cols) v))
  /\ has_shape rows cols (replicate (Z.to_nat rows) (replicate (Z.to_nat cols) v)).
Proof.
  intros Hr Hc. unfold np_full.
  replace (rows <? 0) with false by (symmetry; apply Z.ltb_ge; lia).
  replace (cols <? 0) with false by (symmetry; apply Z.ltb_ge; lia).
  split; [reflexivity|]. split.
  - apply length_replicate.
  - apply Forall_replicate, length_replicate.
Qed.

(** X14. [_workers_board] raises IndexError as soon as one worker of the
    board stands to the right of the grid or below it, or further to the
    left or above than numpy wraps around. *)
Theorem _workers_board_off_grid (b : Board) (w : Worker) :
  0 <= b_length b -> 0 <= b_width b ->
  In w (workers b) ->
  ~ (- b_width b <= w_x w < b_width b /\ - b_length b <= w_y w < b_length b) ->
  _workers_board b = Raise IndexError.
Proof.
  intros Hl Hw Hin Hout. unfold _workers_board.
  destruct (np_full_shape (b_length b) (b_width b) " "%pystr Hl Hw) as [-> Hshape].
  simpl. revert Hin Hshape.
  generalize (replicate (Z.to_nat (b_length b))
                (replicate (Z.to_nat (b_width b)) " "%pystr)).
  induction (workers b) as [|w0 ws IH]; intros a Hin Hshape; [destruct Hin|].
  simpl.
  destruct (np_setitem2_cases (b_length b) (b_width b) a (w_y w0) (w_x w0)
              (Color_value (w_color w0)) Hl Hw Hshape) as [Hcases Hraise].
  destruct Hin as [-> | Hin].
  - rewrite (Hraise Hout).
    apply (fold_left_raise
             (fun a w => np_setitem2 a (w_y w) (w_x w) (Color_value (w_color w)))).
  - destruct Hcases as [(a' & -> & Hshape') | ->].
    + now apply IH.
    + apply (fold_left_raise
               (fun a w => np_setitem2 a (w_y w) (w_x w) (Color_value (w_color w)))).
Qed.

Lemma _workers_board_off_grid_witness :
  _workers_board (set_workers board_5x5 [mkWorker 1 1 0 WHITE; mkWorker 5 5 0 BLUE])
  = Raise IndexError.
Proof.
  apply (_workers_board_off_grid _ (mkWorker 5 5 0 BLUE)).
  - simpl. lia.
  - simpl. lia.
  - right. left. reflexivity.
  - simpl. lia.
Defined.

Lemma cell_insert_eq {A} (rows cols : Z) (a : list (list A)) (row : list A)
      (x y : Z) (v : A) :
  has_shape rows cols a -> 0 <= x < cols -> 0 <= y < rows ->
  a !! Z.to_nat y = Some row ->
  cell (<[Z.to_nat y := <[Z.to_nat x := v]> row]> a) x y = Some v.
Proof.
  intros [Hlen Hrows] Hx Hy Hrow. unfold cell.
  rewrite list_lookup_insert_eq by lia.
  assert (length row = Z.to_nat cols) as Hw.
  { rewrite Forall_forall in Hrows. apply Hrows, list_elem_of_lookup. eauto. }
  apply list_lookup_insert_eq. lia.
Qed.

Lemma cell_insert_ne {A} (a : list (list A)) (row : list A)
      (x y x' y' : Z) (v : A) :
  0 <= x -> 0 <= y -> 0 <= x' -> 0 <= y' -> (x', y') <> (x, y) ->
  a !! Z.to_nat y = Some row ->
  cell (<[Z.to_nat y := <[Z.to_nat x := v]> row]> a) x' y' = cell a x' y'.
Proof.
  intros Hx Hy Hx' Hy' Hne Hrow. unfold cell.
  destruct (decide (Z.to_nat y = Z.to_nat y')) as [E | N].
  - rewrite <- E. rewrite Hrow.
    destruct (decide (Z.to_nat y < length a)%nat) as [Hlt | Hge].
    + rewrite list_lookup_insert_eq by exact Hlt.
      apply list_lookup_insert_ne. intros Ex. apply Hne. f_equal; lia.
    + apply lookup_lt_Some in Hrow. lia.
  - now rewrite list_lookup_insert_ne by exact N.
Qed.

Lemma draw_workers_spec (rows cols : Z) (ws : list Worker) (a : list (list String.string)) :
  has_shape rows cols a ->
  (forall w, In w ws -> 0 <= w_x w < cols /\ 0 <= w_y w < rows) ->
  List.NoDup (map position ws) ->
  exists g,
    fold_left (fun acc w => let? a := acc in
                            np_setitem2 a (w_y w) (w_x w) (Color_value (w_color w)))
              ws (Ok a) = Ok g
    /\ has_shape rows cols g
    /\ forall x y, 0 <= x < cols -> 0 <= y < rows ->
         cell g x y = match find (at_xy x y) ws with
                      | Some w => Some (Color_value (w_color w))
                      | None => cell a x y
                      end.
Proof.
  revert a. induction ws as [|w0 ws IH]; intros a Hshape Hin Hnd.
  - exists a. simpl. auto.
  - simpl. inversion Hnd as [|? ? Hfresh Hnd']; subst.
    destruct (Hin w0 (or_introl eq_refl)) as [Hx0 Hy0].
    pose proof Hshape as [Hlen Hrows].
    destruct (lookup_lt_is_Some_2 a (Z.to_nat (w_y w0))) as [row Hrow]; [lia|].
    assert (length row = Z.to_nat cols) as Hw.
    { rewrite Forall_forall in Hrows. apply Hrows, list_elem_of_lookup. eauto. }
    assert (np_setitem2 a (w_y w0) (w_x w0) (Color_value (w_color w0))
            = Ok (<[Z.to_nat (w_y w0) :=
                      <[Z.to_nat (w_x w0) := Color_value (w_color w0)]> row]> a))
      as Hset.
    { unfold np_setitem2, np_getitem.
      rewrite np_index_inside by lia. simpl. rewrite Hrow. simpl.
      rewrite np_setitem_inside by lia. simpl.
      now rewrite np_setitem_inside by lia. }
    rewrite Hset.
    destruct (IH (<[Z.to_nat (w_y w0) :=
                      <[Z.to_nat (w_x w0) := Color_value (w_color w0)]> row]> a))
      as (g & Hg & Hshape' & Hcells).
    + split.
      * now rewrite length_insert.
      * apply Forall_insert; [exact Hrows|]. now rewrite length_insert.
    + intros w Hw'. apply Hin. now right.
    + exact Hnd'.
    + exists g. split; [exact Hg|]. split; [exact Hshape'|].
      intros x y Hx Hy. rewrite (Hcells x y Hx Hy).
      destruct (at_xy x y w0) eqn:Eat.
      * apply at_xy_true in Eat as [Ex Ey]. subst x y.
        destruct (find (at_xy (w_x w0) (w_y w0)) ws) as [w'|] eqn:Ef.
        -- exfalso. apply find_Some_In in Ef as [Hw' Hat].
           apply at_xy_true in Hat as [Hx' Hy']. apply Hfresh.
           apply in_map_iff. exists w'. split; [|exact Hw'].
           unfold position. congruence.
        -- now apply (cell_insert_eq rows cols).
      * destruct (find (at_xy x y) ws); [reflexivity|].
        apply cell_insert_ne; try lia; [|exact Hrow].
        intros [= -> ->]. unfold at_xy in Eat. rewrite !Z.eqb_refl in Eat.
        discriminate.
Qed.

(** X15. When every worker stands inside the grid and no two share a cell,
    [_workers_board] returns a grid of the board's shape in which every cell
    shows the colour letter of the worker standing on it, and a blank where
    nobody stands. *)
Theorem _workers_board_draws_the_workers (b : Board) :
  (forall w, In w (workers b) -> in_grid b (w_x w) (w_y w)) ->
  List.NoDup (map position (workers b)) ->
  0 <= b_length b -> 0 <= b_width b ->
  exists g,
    _workers_board b = Ok g
    /\ has_shape (b_length b) (b_width b) g
    /\ forall x y, in_grid b x y ->
         cell g x y = Some match _get_worker_at b x y with
                           | Ok w => Color_value (w_color w)
                           | Raise _ => " "%pystr
                           end.
Proof.
  intros Hin Hnd Hl Hw. unfold _workers_board.
  destruct (np_full_shape (b_length b) (b_width b) " "%pystr Hl Hw) as [-> Hshape].
  simpl.
  destruct (draw_workers_spec (b_length b) (b_width b) (workers b) _ Hshape)
    as (g & Hg & Hshape' & Hcells); [exact Hin | exact Hnd |].
  exists g. split; [exact Hg|]. split; [exact Hshape'|].
  intros x y [Hx Hy]. rewrite (Hcells x y Hx Hy). unfold _get_worker_at.
  destruct (find (at_xy x y) (workers b)); [reflexivity|].
  unfold cell. rewrite lookup_replicate_2 by lia. apply lookup_replicate_2. lia.
Qed.

Lemma _workers_board_draws_the_workers_witness :
  exists g, _workers_board (board game_placed) = Ok g
            /\ cell g 1 1 = Some "w"%pystr.
Proof.
  destruct (_workers_board_draws_the_workers (board game_placed))
    as (g & Hg & _ & Hcells).
  - intros w Hw. vm_compute in Hw.
    destruct Hw as [<- | [<- | []]]; unfold in_grid; simpl; lia.
  - vm_compute. repeat constructor; simpl; intuition discriminate.
  - simpl. lia.
  - simpl. lia.
  - exists g. split; [exact Hg|].
    rewrite (Hcells 1 1); [reflexivity | unfold in_grid; simpl; lia].
Defined.

(** * Further properties of the manager *)

(** ** What the end of a call can raise and write *)

Lemma same_log_and_initial_refl (gm : GameManager) : same_log_and_initial gm gm.
Proof. repeat split. Qed.

Lemma same_log_and_initial_trans (g1 g2 g3 : GameManager) :
  same_log_and_initial g1 g2 -> same_log_and_initial g2 g3 ->
  same_log_and_initial g1 g3.
Proof.
  unfold same_log_and_initial.
  intros (-> & -> & -> & ->) (-> & -> & -> & ->). auto.
Qed.

Lemma quiet_bind {A B} (m : M A) (k : A -> M B) :
  quiet m -> (forall a, quiet (k a)) -> quiet (bind m k).
Proof.
  intros Hm Hk gm. unfold bind. destruct (Hm gm) as [H1 H2].
  destruct (m gm) as [g [a|e]]; simpl in *.
  - destruct (Hk a g) as [H3 H4]. split; [|exact H4].
    eapply same_log_and_initial_trans; eauto.
  - split; [exact H1|]. intros [= ->]. now apply H2.
Qed.

Lemma quiet_ret {A} (a : A) : quiet (ret a).
Proof. intros gm. split; [apply same_log_and_initial_refl | discriminate]. Qed.

Lemma quiet_get : quiet get.
Proof. intros gm. split; [apply same_log_and_initial_refl | discriminate]. Qed.

Lemma quiet__change_active_player : quiet _change_active_player.
Proof.
  intros gm. unfold _change_active_player. unfold_M.
  destruct (player_order gm); simpl; split;
    try apply same_log_and_initial_refl; try discriminate.
  repeat split.
Qed.

Lemma quiet__change_current_turn_action : quiet _change_current_turn_action.
Proof.
  intros gm. unfold _change_current_turn_action. unfold_M.
  destruct (forallb _ (player_order gm)); simpl;
    [|split; [apply same_log_and_initial_refl | discriminate]].
  destruct (previous_game_state gm) as [prev|]; simpl;
    [|split; [apply same_log_and_initial_refl | discriminate]].
  destruct (negb (TurnActions_eqb (gs_turn_action prev) PLACE_WORKER)); simpl;
    [|split; [apply same_log_and_initial_refl | discriminate]].
  destruct (turn_order gm); simpl; split;
    try apply same_log_and_initial_refl; try discriminate.
  repeat split.
Qed.

Lemma player_in_win_state_raises (b : Board) (c : Color) (e : Exn) :
  player_in_win_state b c = Raise e -> e = IllegalBoardStateError.
Proof.
  unfold player_in_win_state. destruct (1 <? _)%nat; [|discriminate].
  now intros [= <-].
Qed.

Lemma quiet__check_win_state_board_win_state :
  quiet _check_win_state_board_win_state.
Proof.
  intros gm. rewrite _check_win_state_board_win_state_keeps.
  split; [apply same_log_and_initial_refl|].
  unfold _check_win_state_board_win_state, active_player. unfold_M.
  destruct (previous_game_state gm) as [prev|]; [|discriminate].
  destruct (player_order gm) as [|p ps]; [discriminate|]. simpl.
  destruct (player_in_win_state (gs_board prev) p) as [v|e] eqn:E; [discriminate|].
  apply player_in_win_state_raises in E as ->. discriminate.
Qed.

Lemma quiet_finish_turn (in_loss : bool) : quiet (finish_turn in_loss).
Proof.
  unfold finish_turn. apply quiet_bind.
  - apply quiet__check_win_state_board_win_state.
  - intros in_win. destruct (negb in_win); [|apply quiet_ret].
    apply quiet_bind; [apply quiet_get|]. intros gm1.
    apply quiet_bind.
    + destruct (previous_game_state gm1) as [prev|]; [|apply quiet_ret].
      destruct (negb (TurnActions_eqb (gs_turn_action prev) MOVE) || in_loss);
        [apply quiet__change_active_player | apply quiet_ret].
    + intros []. destruct (negb in_loss);
        [apply quiet__change_current_turn_action | apply quiet_ret].
Qed.

(** What [update_game_state] leaves when it has appended the snapshot [gs]
    and cached its board: the log is one longer, the initial fields are
    kept, and what is raised, if anything, is not IllegalMoveError. *)
Lemma finish_turn_after_commit (in_loss : bool) (gm : GameManager) (gs : GameState) :
  game_state_log
    (fst (finish_turn in_loss (set_board (gs_board gs) (log_append gs gm))))
  = game_state_log gm ++ [gs]
  /\ same_initial gm
       (fst (finish_turn in_loss (set_board (gs_board gs) (log_append gs gm))))
  /\ snd (finish_turn in_loss (set_board (gs_board gs) (log_append gs gm)))
     <> Raise IllegalMoveError.
Proof.
  destruct (quiet_finish_turn in_loss (set_board (gs_board gs) (log_append gs gm)))
    as [(Hlog & Hb & Hp & Ht) Hraise].
  split; [exact Hlog|]. split; [|exact Hraise].
  unfold same_initial. rewrite Hb, Hp, Ht. repeat split.
Qed.

Lemma update_game_state_cases
      (gm : GameManager) (turn_action : TurnActions) (turn_coordinates : list Z)
      (expected_player : option Color) :
  call_shape gm turn_action
    (update_game_state turn_action turn_coordinates expected_player gm).
Proof.
  unfold update_game_state.
  unfold bind at 1. unfold lift at 1.
  destruct (active_player gm) as [ap|e]; [|left; eauto].
  destruct (match expected_player with
            | Some p => negb (Color_eqb p ap)
            | None => false
            end); [left; unfold raise; eauto|].
  unfold bind at 1. unfold lift at 1.
  destruct (current_turn_action gm) as [required|e]; [|left; eauto].
  destruct (negb (TurnActions_eqb turn_action required));
    [left; unfold raise; eauto|].
  unfold bind at 1. unfold get at 1.
  destruct turn_action; unfold call_shape.
  - unfold bind, try_, modify, ret.
    destruct (coord turn_coordinates 0) as [x|e]; [|left; eauto].
    destruct (coord turn_coordinates 1) as [y|e]; [|left; eauto].
    destruct (place_worker (board gm) ap x y) as [board1|e]; [|left; eauto].
    right. left. split; [discriminate|].
    exists (mkGameState ap board1 PLACE_WORKER
              (TurnPlace (mkPlaceWorkerTurn ap x y))), false.
    split; reflexivity.
  - unfold bind, try_, modify, ret.
    destruct (coord turn_coordinates 0) as [sx|e]; [|left; eauto].
    destruct (coord turn_coordinates 1) as [sy|e]; [|left; eauto].
    destruct (coord turn_coordinates 2) as [ex|e]; [|left; eauto].
    destruct (coord turn_coordinates 3) as [ey|e]; [|left; eauto].
    destruct (move (board gm) ap sx sy ex ey) as [board1|e]; [|left; eauto].
    right. right. split; [reflexivity|].
    exists (mkGameState ap board1 MOVE (TurnMove (mkMoveTurn ap sx sy ex ey))).
    split; reflexivity.
  - unfold bind, try_, modify, ret.
    destruct (coord turn_coordinates 0) as [wx|e]; [|left; eauto].
    destruct (coord turn_coordinates 1) as [wy|e]; [|left; eauto].
    pose proof (_check_moved_worker_before_build_keeps gm wx wy) as Hk.
    destruct (_check_moved_worker_before_build wx wy gm) as [g [[]|e]];
      simpl in Hk; subst g; [|left; eauto].
    destruct (coord turn_coordinates 2) as [bx|e]; [|left; eauto].
    destruct (coord turn_coordinates 3) as [by_|e]; [|left; eauto].
    destruct (build (board gm) ap wx wy bx by_) as [board1|e]; [|left; eauto].
    right. left. split; [discriminate|].
    exists (mkGameState ap board1 BUILD
              (TurnBuild (mkBuildTurn ap wx wy bx by_))), false.
    split; reflexivity.
Qed.

(** X16. Whatever the phase, the coordinates and the expected player, a call
    of [update_game_state] that raises IllegalMoveError returns the manager
    exactly as it received it. *)
Theorem IllegalMoveError_leaves_the_manager
        (gm gm' : GameManager) (turn_action : TurnActions)
        (turn_coordinates : list Z) (expected_player : option Color) :
  update_game_state turn_action turn_coordinates expected_player gm
  = (gm', Raise IllegalMoveError) ->
  gm' = gm.
Proof.
  intros H.
  destruct (update_game_state_cases gm turn_action turn_coordinates expected_player)
    as [(e & E) | [(_ & gs & in_loss & _ & E) | (_ & gs & _ & E)]];
    rewrite E in H.
  - now injection H as <-.
  - destruct (finish_turn_after_commit in_loss gm gs) as (_ & _ & Hraise).
    rewrite H in Hraise. now destruct Hraise.
  - discriminate.
Qed.

Lemma IllegalMoveError_leaves_the_manager_witness :
  fst (update_game_state PLACE_WORKER [0; 0] (Some WHITE) game_start) = game_start.
Proof.
  apply (IllegalMoveError_leaves_the_manager game_start _ PLACE_WORKER [0; 0]
           (Some WHITE)).
  vm_compute. reflexivity.
Defined.

(** ** The log only grows *)

Lemma update_game_state_log
      (gm : GameManager) (turn_action : TurnActions) (turn_coordinates : list Z)
      (expected_player : option Color) :
  (exists suffix,
      game_state_log
        (fst (update_game_state turn_action turn_coordinates expected_player gm))
      = game_state_log gm ++ suffix
      /\ (length suffix <= 1)%nat)
  /\ same_initial gm
       (fst (update_game_state turn_action turn_coordinates expected_player gm)).
Proof.
  destruct (update_game_state_cases gm turn_action turn_coordinates expected_player)
    as [(e & E) | [(_ & gs & in_loss & _ & E) | (_ & gs & _ & E)]];
    rewrite E.
  - split; [|repeat split]. exists []. simpl. rewrite app_nil_r. auto.
  - destruct (finish_turn_after_commit in_loss gm gs) as (Hlog & Hinit & _).
    split; [|exact Hinit]. exists [gs]. auto.
  - split; [|repeat split]. exists [gs]. auto.
Qed.

(** X17. The log is append-only: along any sequence of calls of
    [update_game_state], whatever they return or raise, the log at the start
    is a prefix of the log at the end, which has at most one more snapshot
    per call. *)
Theorem log_is_append_only (calls : list Call) (gm : GameManager) :
  exists suffix,
    game_state_log (run_calls calls gm) = game_state_log gm ++ suffix
    /\ (length suffix <= length calls)%nat.
Proof.
  revert gm. induction calls as [|c calls IH]; intros gm; simpl.
  - exists []. rewrite app_nil_r. auto.
  - destruct (update_game_state_log gm (call_action c) (call_coordinates c)
                (call_player c)) as [(s1 & H1 & L1) _].
    destruct (IH (fst (update_game_state (call_action c) (call_coordinates c)
                         (call_player c) gm))) as (s2 & H2 & L2).
    exists (s1 ++ s2). rewrite H2, H1, app_assoc, length_app. split; [reflexivity|lia].
Qed.


(** ** What a placement and a build that return have done *)

Lemma previous_game_state_after_append (b : Board) (gs : GameState) (gm : GameManager) :
  previous_game_state (set_board b (log_append gs gm)) = Some gs.
Proof. unfold previous_game_state. simpl. apply last_snoc. Qed.

(** The end of the call, after a placement or a build. *)
Lemma finish_turn_eval (g : GameManager) (gs : GameState) (ap : Color)
      (rest : list Color) :
  previous_game_state g = Some gs ->
  player_order g = ap :: rest ->
  gs_turn_action gs <> MOVE ->
  finish_turn false g
  = match player_in_win_state (gs_board gs) ap with
    | Raise e => (g, Raise e)
    | Ok true => (g, Ok tt)
    | Ok false => _change_current_turn_action (set_player_order (rest ++ [ap]) g)
    end.
Proof.
  intros Hprev Hpo Hact. apply TurnActions_eqb_neq in Hact.
  unfold finish_turn, _check_win_state_board_win_state, _change_active_player,
    active_player.
  unfold_M. rewrite Hprev, Hpo. simpl.
  destruct (player_in_win_state (gs_board gs) ap) as [[|]|e]; simpl; try reflexivity.
  rewrite Hprev, Hact. simpl. rewrite Hpo. reflexivity.
Qed.

(** X19. A PLACE_WORKER call that returns has placed a worker of the active
    player with [Board.place_worker], cached that board, logged the
    placement under the active player, left the phase rotation alone, and
    passed the turn to the next player, unless the new board has the active
    player in a win state, in which case the player rotation stays. *)
Theorem placement_that_returns
        (gm gm' : GameManager) (turn_coordinates : list Z)
        (expected_player : option Color) :
  update_game_state PLACE_WORKER turn_coordinates expected_player gm = (gm', Ok tt) ->
  exists ap rest x y board1,
    player_order gm = ap :: rest
    /\ turn_coordinates !! 0%nat = Some x /\ turn_coordinates !! 1%nat = Some y
    /\ place_worker (board gm) ap x y = Ok board1
    /\ board gm' = board1
    /\ game_state_log gm'
       = game_state_log gm
         ++ [mkGameState ap board1 PLACE_WORKER (TurnPlace (mkPlaceWorkerTurn ap x y))]
    /\ turn_order gm' = turn_order gm
    /\ ((player_in_win_state board1 ap = Ok true /\ player_order gm' = ap :: rest)
        \/ (player_in_win_state board1 ap = Ok false
            /\ player_order gm' = rest ++ [ap])).
Proof.
  intros H. unfold update_game_state, active_player, coord in H. unfold_M.
  destruct (player_order gm) as [|ap rest] eqn:Epo; [discriminate|].
  destruct (match expected_player with
            | Some p => negb (Color_eqb p ap)
            | None => false
            end); [discriminate|].
  cbv beta in H.
  destruct (current_turn_action gm) as [required|e]; [|discriminate].
  destruct (negb (TurnActions_eqb PLACE_WORKER required)); [discriminate|].
  cbv beta in H.
  destruct (turn_coordinates !! 0%nat) as [x|] eqn:E0; [|discriminate].
  destruct (turn_coordinates !! 1%nat) as [y|] eqn:E1; [|discriminate].
  destruct (place_worker (board gm) ap x y) as [board1|e] eqn:Ep; [|discriminate].
  cbn [fst snd] in H.
  set (gs := mkGameState ap board1 PLACE_WORKER
               (TurnPlace (mkPlaceWorkerTurn ap x y))) in *.
  rewrite (finish_turn_eval (set_board board1 (log_append gs gm)) gs ap rest) in H;
    [| apply (previous_game_state_after_append board1 gs gm)
     | exact Epo | discriminate].
  exists ap, rest, x, y, board1. simpl gs_board in H.
  destruct (player_in_win_state board1 ap) as [[|]|e]; [| |discriminate].
  - injection H as <-. simpl. repeat (split; [reflexivity || assumption|]).
    left. split; [reflexivity|exact Epo].
  - unfold _change_current_turn_action in H. unfold_M.
    unfold previous_game_state in H. simpl in H. rewrite last_snoc in H.
    simpl in H.
    destruct (forallb _ (rest ++ [ap])); injection H as <-; simpl;
      repeat (split; [reflexivity || assumption|]); right; split; reflexivity.
Qed.

Lemma placement_that_returns_witness :
  exists ap rest x y board1,
    player_order game_start = ap :: rest
    /\ [0; 0] !! 0%nat = Some x /\ [0; 0] !! 1%nat = Some y
    /\ place_worker (board game_start) ap x y = Ok board1
    /\ player_in_win_state board1 ap = Ok false.
Proof.
  destruct (placement_that_returns game_start
              (fst (update_game_state PLACE_WORKER [0; 0] None game_start))
              [0; 0] None)
    as (ap & rest & x & y & board1 & Hpo & H0 & H1 & Hp & _ & _ & _ & Hwin).
  - vm_compute. reflexivity.
  - exists ap, rest, x, y, board1. repeat split; auto.
    vm_compute in Hpo. injection Hpo as <- <-.
    vm_compute in H0. injection H0 as <-. vm_compute in H1. injection H1 as <-.
    vm_compute in Hp. injection Hp as <-. vm_compute. reflexivity.
Defined.

Lemma build_keeps_can_place (b b' : Board) (c c' : Color) (wx wy bx by_ : Z) :
  build b c wx wy bx by_ = Ok b' ->
  player_can_place_workers b' c' = player_can_place_workers b c'.
Proof.
  intros H. destruct (build_valid _ _ _ _ _ _ _ H) as (w & blocks' & _ & _ & _ & ->).
  reflexivity.
Qed.

Lemma forallb_negb_existsb {A} (f : A -> bool) (l : list A) :
  forallb (fun a => negb (f a)) l = negb (existsb f l).
Proof.
  induction l as [|a l IH]; simpl; [reflexivity|].
  rewrite IH. now destruct (f a).
Qed.

(** X20. A BUILD call that returns has built with [Board.build] for the
    active player, cached that board and logged the build; unless the active
    player is in a win state on that board, it has passed the turn to the
    next player and moved BUILD from the head of the phase rotation to its
    end. *)
Theorem build_that_returns
        (gm gm' : GameManager) (turn_coordinates : list Z)
        (expected_player : option Color) :
  update_game_state BUILD turn_coordinates expected_player gm = (gm', Ok tt) ->
  exists ap rest phases wx wy bx by_ board1,
    player_order gm = ap :: rest
    /\ turn_order gm = BUILD :: phases
    /\ turn_coordinates !! 0%nat = Some wx /\ turn_coordinates !! 1%nat = Some wy
    /\ turn_coordinates !! 2%nat = Some bx /\ turn_coordinates !! 3%nat = Some by_
    /\ build (board gm) ap wx wy bx by_ = Ok board1
    /\ board gm' = board1
    /\ game_state_log gm'
       = game_state_log gm
         ++ [mkGameState ap board1 BUILD (TurnBuild (mkBuildTurn ap wx wy bx by_))]
    /\ ((player_in_win_state board1 ap = Ok true
         /\ player_order gm' = ap :: rest /\ turn_order gm' = BUILD :: phases)
        \/ (player_in_win_state board1 ap = Ok false
            /\ player_order gm' = rest ++ [ap]
            /\ turn_order gm' = phases ++ [BUILD])).
Proof.
  intros H. unfold update_game_state, active_player, current_turn_action, coord in H.
  unfold_M.
  destruct (player_order gm) as [|ap rest] eqn:Epo; [discriminate|].
  destruct (match expected_player with
            | Some p => negb (Color_eqb p ap)
            | None => false
            end); [discriminate|].
  cbv beta in H. rewrite Epo in H.
  destruct (existsb (player_can_place_workers (board gm)) (ap :: rest)) eqn:Ecan;
    [discriminate|].
  destruct (turn_order gm) as [|t phases] eqn:Eto; [discriminate|].
  destruct t; try discriminate.
  cbn [TurnActions_eqb negb] in H. cbv beta in H.
  destruct (turn_coordinates !! 0%nat) as [wx|] eqn:E0; [|discriminate].
  destruct (turn_coordinates !! 1%nat) as [wy|] eqn:E1; [|discriminate].
  pose proof (_check_moved_worker_before_build_keeps gm wx wy) as Hk.
  destruct (_check_moved_worker_before_build wx wy gm) as [g [[]|e]];
    simpl in Hk; subst g; [|discriminate].
  destruct (turn_coordinates !! 2%nat) as [bx|] eqn:E2; [|discriminate].
  destruct (turn_coordinates !! 3%nat) as [by_|] eqn:E3; [|discriminate].
  destruct (build (board gm) ap wx wy bx by_) as [board1|e] eqn:Eb; [|discriminate].
  cbn [fst snd] in H.
  set (gs := mkGameState ap board1 BUILD
               (TurnBuild (mkBuildTurn ap wx wy bx by_))) in *.
  rewrite (finish_turn_eval (set_board board1 (log_append gs gm)) gs ap rest) in H;
    [| apply (previous_game_state_after_append board1 gs gm)
     | exact Epo | discriminate].
  exists ap, rest, phases, wx, wy, bx, by_, board1. simpl gs_board in H.
  destruct (player_in_win_state board1 ap) as [[|]|e]; [| |discriminate].
  - injection H as <-. simpl. repeat (split; [reflexivity || assumption|]). left. auto.
  - unfold _change_current_turn_action in H. unfold_M.
    unfold previous_game_state in H. simpl in H. rewrite last_snoc in H.
    simpl in H.
    assert (forallb (fun c => negb (player_can_place_workers board1 c)) (rest ++ [ap])
            = true) as Hnone.
    { apply forallb_forall. intros c Hc.
      rewrite (build_keeps_can_place _ _ _ c _ _ _ _ Eb).
      apply negb_true_iff.
      destruct (player_can_place_workers (board gm) c) eqn:Ec; [|reflexivity].
      assert (existsb (player_can_place_workers (board gm)) (ap :: rest) = true)
        as Hex.
      { apply existsb_exists. exists c. split; [|exact Ec].
        apply in_app_or in Hc as [Hc | [<- | []]]; [now right | now left]. }
      congruence. }
    rewrite Hnone, Eto in H. injection H as <-. simpl.
    repeat (split; [reflexivity || assumption|]). right. auto.
Qed.

Lemma build_that_returns_witness :
  exists gm',
    update_game_state BUILD [1; 0; 2; 0] None game_build_due = (gm', Ok tt)
    /\ player_order gm' = [WHITE; BLUE] /\ turn_order gm' = [MOVE; BUILD].
Proof.
  exists (fst (update_game_state BUILD [1; 0; 2; 0] None game_build_due)).
  assert (update_game_state BUILD [1; 0; 2; 0] None game_build_due
          = (fst (update_game_state BUILD [1; 0; 2; 0] None game_build_due), Ok tt))
    as E by (vm_compute; reflexivity).
  split; [exact E|].
  destruct (build_that_returns _ _ _ _ E)
    as (ap & rest & phases & wx & wy & bx & by_ & board1
        & Hpo & Hto & _ & _ & _ & _ & _ & _ & _ & Hcases).
  vm_compute in Hpo. injection Hpo as <- <-.
  vm_compute in Hto. injection Hto as <-.
  vm_compute. split; reflexivity.
Defined.

(** ** Rotating the players *)

Lemma set_player_order_same (gm : GameManager) :
  set_player_order (player_order gm) gm = gm.
Proof. now destruct gm. Qed.

Lemma rotate_players_spec (n : nat) (gm : GameManager) :
  (n <= length (player_order gm))%nat ->
  rotate_players n gm
  = set_player_order (drop n (player_order gm) ++ take n (player_order gm)) gm.
Proof.
  revert gm. induction n as [|n IH]; intros gm Hn; simpl.
  - rewrite drop_0, app_nil_r. symmetry. apply set_player_order_same.
  - unfold _change_active_player at 1. unfold_M.
    destruct (player_order gm) as [|c rest] eqn:Epo; simpl in Hn; [lia|].
    simpl. rewrite IH by (simpl; rewrite length_app; simpl; lia).
    simpl. unfold set_player_order. simpl. f_equal.
    rewrite drop_app_le, take_app_le by lia.
    now rewrite <- app_assoc.
Qed.

(** X21. Passing the turn as many times as there are players brings the
    manager back: the player rotation, like every other field, is what it
    was; after any number of turns passed the rotation holds the same
    players. *)
Theorem rotation_comes_back (gm : GameManager) (n : nat) :
  rotate_players (length (player_order gm)) gm = gm
  /\ Permutation (player_order (rotate_players n gm)) (player_order gm).
Proof.
  split.
  - rewrite rotate_players_spec by lia.
    rewrite drop_all, firstn_all. simpl. apply set_player_order_same.
  - revert gm. induction n as [|n IH]; intros gm; simpl; [reflexivity|].
    rewrite IH. unfold _change_active_player. unfold_M.
    destruct (player_order gm) as [|c rest] eqn:Epo; simpl;
      [now rewrite Epo|].
    symmetry. apply Permutation_cons_append.
Qed.

(** ** Resetting the manager *)

Lemma run_calls_same_initial (calls : list Call) (gm : GameManager) :
  same_initial gm (run_calls calls gm).
Proof.
  revert gm. induction calls as [|c calls IH]; intros gm; simpl.
  - repeat split.
  - destruct (update_game_state_log gm (call_action c) (call_coordinates c)
                (call_player c)) as [_ (H1 & H2 & H3)].
    destruct (IH (fst (update_game_state (call_action c) (call_coordinates c)
                         (call_player c) gm))) as (G1 & G2 & G3).
    unfold same_initial. rewrite G1, G2, G3. auto.
Qed.

(** X22. After any sequence of calls of [update_game_state] on a fresh
    manager, whatever they returned or raised, [reset] gives back the fresh
    manager: the board and the player order it was created with, the phase
    rotation MOVE, BUILD and an empty log. *)
Theorem reset_restores_the_fresh_manager
        (players : list Color) (b : Board) (calls : list Call) :
  GameManager_reset (run_calls calls (GameManager_init players b))
  = (GameManager_init players b, Ok tt).
Proof.
  destruct (run_calls_same_initial calls (GameManager_init players b))
    as (H1 & H2 & H3).
  unfold GameManager_reset, modify. rewrite H1, H2, H3. reflexivity.
Qed.

(** ** The end-of-turn bookkeeping *)

Lemma _check_loss_state_player_cant_build_keeps (gm : GameManager) :
  fst (_check_loss_state_player_cant_build gm) = gm.
Proof.
  unfold _check_loss_state_player_cant_build. unfold_M.
  destruct (previous_game_state gm) as [prev|]; [|reflexivity].
  destruct (negb (length (player_order gm) =? 1)%nat
            && TurnActions_eqb (gs_turn_action prev) MOVE); reflexivity.
Qed.

Lemma _check_win_state_one_player_left_keeps (gm : GameManager) :
  fst (_check_win_state_one_player_left gm) = gm.
Proof.
  unfold _check_win_state_one_player_left. unfold_M.
  destruct (length (player_order gm) =? 1)%nat; [|reflexivity].
  destruct (active_player gm); reflexivity.
Qed.

(** X23. [_in_end_game_state] never changes the manager: no player leaves
    the rotation.  It raises AttributeError whenever the log is not empty,
    the rotation does not hold exactly one player, and either the last
    logged action is a MOVE or the required phase is MOVE; on an empty log
    it answers whether exactly one player is in the rotation. *)
Theorem _in_end_game_state_removes_nobody (gm : GameManager) :
  fst (_in_end_game_state gm) = gm
  /\ (forall prev,
        previous_game_state gm = Some prev ->
        length (player_order gm) <> 1%nat ->
        gs_turn_action prev = MOVE \/ current_turn_action gm = Ok MOVE ->
        snd (_in_end_game_state gm) = Raise AttributeError)
  /\ (game_state_log gm = [] ->
      snd (_in_end_game_state gm) = Ok (length (player_order gm) =? 1)%nat).
Proof.
  split; [|split].
  - unfold _in_end_game_state, bind.
    pose proof (_check_loss_state_player_cant_build_keeps gm) as H1.
    destruct (_check_loss_state_player_cant_build gm) as [g1 [[]|e]];
      simpl in H1; subst g1; [|reflexivity].
    pose proof (_check_loss_state_player_cant_move_keeps gm) as H2.
    destruct (_check_loss_state_player_cant_move gm) as [g2 [[]|e]];
      simpl in H2; subst g2; [|reflexivity].
    pose proof (_check_win_state_one_player_left_keeps gm) as H3.
    destruct (_check_win_state_one_player_left gm) as [g3 [v|e]];
      simpl in H3; subst g3; [|reflexivity].
    destruct (negb v); [|reflexivity].
    apply _check_win_state_board_win_state_keeps.
  - intros prev Hprev Hlen Hmove.
    pose proof Hlen as Hlen'. apply Nat.eqb_neq in Hlen'.
    unfold _in_end_game_state, bind.
    assert (_check_loss_state_player_cant_build gm
            = if TurnActions_eqb (gs_turn_action prev) MOVE
              then (gm, Raise AttributeError) else (gm, Ok tt)) as E.
    { unfold _check_loss_state_player_cant_build. unfold_M.
      rewrite Hprev, Hlen'. simpl.
      destruct (TurnActions_eqb (gs_turn_action prev) MOVE); reflexivity. }
    rewrite E.
    destruct (TurnActions_eqb (gs_turn_action prev) MOVE) eqn:Ea; [reflexivity|].
    destruct Hmove as [Hmove | Hmove].
    + apply TurnActions_eqb_eq in Hmove. congruence.
    + now rewrite (_check_loss_state_player_cant_move_raises gm prev Hprev Hlen Hmove).
  - intros Hlog.
    assert (previous_game_state gm = None) as Hprev
        by (unfold previous_game_state; now rewrite Hlog).
    assert (_check_loss_state_player_cant_build gm = (gm, Ok tt)) as E1.
    { unfold _check_loss_state_player_cant_build. unfold_M. now rewrite Hprev. }
    assert (_check_loss_state_player_cant_move gm = (gm, Ok tt)) as E2.
    { unfold _check_loss_state_player_cant_move. unfold_M. now rewrite Hprev. }
    assert (_check_win_state_board_win_state gm = (gm, Ok false)) as E3.
    { unfold _check_win_state_board_win_state. unfold_M. now rewrite Hprev. }
    unfold _in_end_game_state, bind. rewrite E1, E2.
    unfold _check_win_state_one_player_left, active_player. unfold_M.
    destruct (player_order gm) as [|c [|d rest]] eqn:Epo; simpl.
    + now rewrite E3.
    + now rewrite Epo.
    + now rewrite E3.
Qed.

Lemma _in_end_game_state_removes_nobody_witness :
  snd (_in_end_game_state game_start) = Ok false
  /\ snd (_in_end_game_state game_moved) = Raise AttributeError.
Proof.
  destruct (_in_end_game_state_removes_nobody game_start) as (_ & _ & Hempty).
  destruct (_in_end_game_state_removes_nobody game_moved) as (_ & Hraise & _).
  split.
  - apply Hempty. reflexivity.
  - apply (Hraise (mkGameState BLUE
                     (set_workers board_3x3
                        [mkWorker 1 0 0 BLUE; mkWorker 1 1 0 WHITE])
                     MOVE (TurnMove (mkMoveTurn BLUE 0 0 1 0)))).
    + vm_compute. reflexivity.
    + vm_compute. discriminate.
    + left. reflexivity.
Defined.

(** ** The worker that builds *)

(** X24. [_check_moved_worker_before_build] lets the build pass exactly when
    the last snapshot of the log is a MOVE whose record ends on the
    coordinates given for the building worker. *)
Theorem _check_moved_worker_before_build_accepts
        (gm : GameManager) (wx wy : Z) :
  _check_moved_worker_before_build wx wy gm = (gm, Ok tt)
  <-> exists prev t,
        last (game_state_log gm) = Some prev
        /\ gs_turn_action prev = MOVE
        /\ gs_turn prev = TurnMove t
        /\ end_x t = wx /\ end_y t = wy.
Proof.
  unfold _check_moved_worker_before_build, previous_game_state. unfold_M. split.
  - intros H. destruct (last (game_state_log gm)) as [prev|]; [|discriminate].
    destruct (TurnActions_eqb (gs_turn_action prev) MOVE) eqn:Ea; [|discriminate].
    apply TurnActions_eqb_eq in Ea.
    destruct (gs_turn prev) as [t | t | t] eqn:Et; try discriminate.
    destruct (pair_eqb (end_x t, end_y t) (wx, wy)) eqn:Ep; [|discriminate].
    apply pair_eqb_eq in Ep. injection Ep as Hx Hy.
    exists prev, t. auto.
  - intros (prev & t & -> & Ha & -> & <- & <-). rewrite Ha. simpl.
    replace (pair_eqb (end_x t, end_y t) (end_x t, end_y t)) with true
      by (symmetry; now apply pair_eqb_eq).
    reflexivity.
Qed.

(** ** Calls out of order *)

(** X25. A call made in the name of a player who is not the active one, or
    for a phase that is not the required one, raises IllegalMoveError and
    leaves the manager as it was, whatever the coordinates. *)
Theorem out_of_order_is_rejected
        (gm : GameManager) (turn_action : TurnActions) (turn_coordinates : list Z)
        (expected_player : option Color) (ap : Color) (required : TurnActions) :
  active_player gm = Ok ap ->
  current_turn_action gm = Ok required ->
  (exists p, expected_player = Some p /\ p <> ap) \/ turn_action <> required ->
  update_game_state turn_action turn_coordinates expected_player gm
  = (gm, Raise IllegalMoveError).
Proof.
  intros Hap Hreq Hout. unfold update_game_state. unfold_M. rewrite Hap.
  destruct (match expected_player with
            | Some p => negb (Color_eqb p ap)
            | None => false
            end) eqn:Eexp; [reflexivity|].
  cbv beta. rewrite Hreq.
  destruct Hout as [(p & -> & Hne) | Hne].
  - apply negb_false_iff, Color_eqb_eq in Eexp. contradiction.
  - apply TurnActions_eqb_neq in Hne. now rewrite Hne.
Qed.

Lemma out_of_order_is_rejected_witness :
  update_game_state BUILD [0; 0; 1; 1] (Some BLUE) game_placed
  = (game_placed, Raise IllegalMoveError).
Proof.
  apply (out_of_order_is_rejected game_placed BUILD [0; 0; 1; 1] (Some BLUE)
           BLUE MOVE); [reflexivity | reflexivity |].
  right. discriminate.
Defined.

(** ** Stepping onto the top level *)

Lemma filter_length_insert_count {A} (f : A -> bool) (l : list A) (i : nat)
      (a a' : A) :
  l !! i = Some a ->
  (length (List.filter f (<[i := a']> l)) + (if f a then 1 else 0)
   = length (List.filter f l) + (if f a' then 1 else 0))%nat.
Proof.
  revert i. induction l as [|x l IH]; intros i Hi; [discriminate|].
  destruct i as [|i].
  - injection Hi as ->. change (<[0%nat := a']> (a :: l)) with (a' :: l). simpl.
    destruct (f a), (f a'); simpl; lia.
  - change (<[S i := a']> (x :: l)) with (x :: <[i := a']> l). simpl in *.
    specialize (IH i Hi). destruct (f x); simpl; lia.
Qed.

(** X26. When no worker of a player records the height [max_height - 1], a
    successful move of that player onto a cell of that height puts the
    player in the win state; a successful move onto a cell of any other
    height leaves [player_in_win_state] at [False]. *)
Theorem moving_onto_the_top_level_wins
        (b b' : Board) (c : Color) (sx sy ex ey h : Z) :
  count_at_top b c = 0%nat ->
  move b c sx sy ex ey = Ok b' ->
  _block_height b ex ey = Ok h ->
  player_in_win_state b' c = Ok (h =? max_height b - 1).
Proof.
  intros Hnone Hmove Hh.
  destruct (move_Ok _ _ _ _ _ _ _ Hmove)
    as (idx & w & h' & _ & Hw & _ & _ & Hc & _ & Hh' & ->).
  rewrite Hh in Hh'. injection Hh' as <-.
  unfold player_in_win_state. rewrite workers_at_max_height_count.
  unfold count_at_top in *. simpl.
  pose proof (filter_length_insert_count
                (fun w0 => Color_eqb (w_color w0) c
                           && (w_height w0 =? max_height b - 1))
                (workers b) idx w (mkWorker ex ey h c) Hw) as Hcount.
  simpl in Hcount. rewrite Color_eqb_refl in Hcount. simpl in Hcount.
  destruct (Color_eqb (w_color w) c && (w_height w =? max_height b - 1)) eqn:Ew.
  - exfalso.
    assert (In w (List.filter
                    (fun w0 => Color_eqb (w_color w0) c
                               && (w_height w0 =? max_height b - 1))
                    (workers b))) as Hin.
    { apply filter_In. split; [|exact Ew].
      apply list_elem_of_In, list_elem_of_lookup. eauto. }
    destruct (List.filter _ (workers b)); [destruct Hin | discriminate].
  - rewrite Hnone in Hcount.
    destruct (h =? max_height b - 1).
    + replace (length _) with 1%nat by lia. reflexivity.
    + replace (length _) with 0%nat by lia. reflexivity.
Qed.

Lemma moving_onto_the_top_level_wins_witness :
  player_in_win_state
    (mkBoard 3 3 2 1 [mkWorker 1 1 1 BLUE] [[0; 0; 0]; [0; 1; 0]; [0; 0; 0]]) BLUE
  = Ok true.
Proof.
  apply (moving_onto_the_top_level_wins
           (mkBoard 3 3 2 1 [mkWorker 0 0 0 BLUE] [[0; 0; 0]; [0; 1; 0]; [0; 0; 0]])
           _ BLUE 0 0 1 1 1); vm_compute; reflexivity.
Defined.

(** ** The cached board and the log *)

Lemma update_game_state_cache
      (gm : GameManager) (turn_action : TurnActions) (turn_coordinates : list Z)
      (expected_player : option Color) :
  turn_action <> MOVE ->
  cache_matches_log gm ->
  cache_matches_log
    (fst (update_game_state turn_action turn_coordinates expected_player gm)).
Proof.
  intros Hne Hinv.
  destruct (update_game_state_cases gm turn_action turn_coordinates expected_player)
    as [(e & E) | [(_ & gs & in_loss & _ & E) | (Heq & _)]];
    [| |contradiction].
  - now rewrite E.
  - rewrite E.
    destruct (finish_turn_keeps in_loss (set_board (gs_board gs) (log_append gs gm)))
      as [Hlog Hboard].
    unfold cache_matches_log, previous_game_state. rewrite Hlog, Hboard. simpl.
    now rewrite last_snoc.
Qed.

(** X27. On a fresh manager, after any sequence of PLACE_WORKER and BUILD
    calls, whatever they returned or raised, the cached board is the board
    of the last snapshot of the log, and the initial board while the log is
    empty. *)
Theorem cache_follows_the_log
        (players : list Color) (b : Board) (calls : list Call) :
  Forall (fun c => call_action c <> MOVE) calls ->
  cache_matches_log (run_calls calls (GameManager_init players b)).
Proof.
  intros Hcalls.
  assert (cache_matches_log (GameManager_init players b)) as H0 by reflexivity.
  revert H0. generalize (GameManager_init players b).
  induction Hcalls as [|c calls Hc _ IH]; intros gm H0; simpl; [exact H0|].
  apply IH. now apply update_game_state_cache.
Qed.

Lemma cache_follows_the_log_witness :
  cache_matches_log game_placed.
Proof.
  apply (cache_follows_the_log [BLUE; WHITE] board_3x3
           [mkCall PLACE_WORKER [0; 0] None; mkCall PLACE_WORKER [1; 1] None]).
  repeat constructor; discriminate.
Defined.
